(** * The stage-aware responder of [src/main.js]

    The handler [main] builds a response envelope whose [body] is
    [JSON.stringify] of a three-field object: a constant [message], the
    ISO-8601 rendering of the current instant, and the deployment stage read
    from [process.env.STAGE] with the default ['dev'].

    The development embeds the handler together with the pieces of the
    ECMAScript library it calls ([||], [new Date().toISOString()],
    [JSON.stringify]), and the decoders used to observe the body
    ([JSON.parse], and [Date.parse] on the date-time string format). *)

From Stdlib Require Import ZArith NArith List Lia Bool.
From Stdlib Require Import Strings.String Strings.Ascii Strings.Byte.
From stdpp Require Import base option list countable gmap.

Local Open Scope Z_scope.

(** ** Strings

    An ECMAScript string is a sequence of 16-bit code units.  A code unit is
    kept as its two bytes, most significant first. *)

Record code_unit := CU { cu_hi : byte; cu_lo : byte }.

Abbreviation jsstring := (list code_unit).

#[global] Instance byte_eq_decision : EqDecision byte := Byte.byte_eq_dec.

#[global] Instance code_unit_eq_decision : EqDecision code_unit.
Proof. solve_decision. Defined.

Definition code_unit_to_pair (c : code_unit) : N * N :=
  (Byte.to_N (cu_hi c), Byte.to_N (cu_lo c)).

Definition code_unit_of_pair (p : N * N) : option code_unit :=
  match Byte.of_N (fst p), Byte.of_N (snd p) with
  | Some h, Some l => Some (CU h l)
  | _, _ => None
  end.

Lemma code_unit_of_to_pair (c : code_unit) :
  code_unit_of_pair (code_unit_to_pair c) = Some c.
Proof.
  destruct c as [h l]. unfold code_unit_of_pair, code_unit_to_pair. simpl.
  now rewrite !Byte.of_to_N.
Qed.

#[global] Instance code_unit_countable : Countable code_unit :=
  inj_countable code_unit_to_pair code_unit_of_pair code_unit_of_to_pair.

Definition cu_eqb (a b : code_unit) : bool :=
  Byte.eqb (cu_hi a) (cu_hi b) && Byte.eqb (cu_lo a) (cu_lo b).

(** A code unit of the Basic Latin / Latin-1 range. *)
Definition latin (b : byte) : code_unit := CU x00 b.

(** A source literal: every character of the literals of [main.js] is ASCII,
    so each one is a single code unit. *)
Definition js (s : string) : jsstring := map latin (list_byte_of_string s).

Definition DQUOTE : code_unit := latin x22.
Definition BACKSLASH : code_unit := latin x5c.

(** ** Values *)

#[local] Set Warnings "-register-all".

Inductive value :=
| VUndefined
| VNull
| VBool (b : bool)
| VNumber (n : Z)
| VString (s : jsstring)
| VArray (elems : list value)
| VObject (props : list (jsstring * value)).

(** Abrupt completions: the only exception the handler's callees can raise. *)
Inductive exception := RangeError.

Inductive completion (A : Type) :=
| Normal (a : A)
| Throw (e : exception).
Arguments Normal {A} a.
Arguments Throw {A} e.

Definition bind {A B} (c : completion A) (k : A -> completion B) : completion B :=
  match c with
  | Normal a => k a
  | Throw e => Throw e
  end.

Notation "'let*' x ':=' c 'in' k" := (bind c (fun x => k))
  (at level 10, x name, c at level 100, k at level 200).

(** The settled state of the promise an [async] function returns. *)
Inductive promise (A : Type) :=
| Fulfilled (a : A)
| Rejected (e : exception).
Arguments Fulfilled {A} a.
Arguments Rejected {A} e.

Definition async {A} (c : completion A) : promise A :=
  match c with
  | Normal a => Fulfilled a
  | Throw e => Rejected e
  end.

(** [ToBoolean] *)
Definition ToBoolean (v : value) : bool :=
  match v with
  | VUndefined | VNull => false
  | VBool b => b
  | VNumber n => negb (n =? 0)
  | VString s => match s with [] => false | _ :: _ => true end
  | VArray _ | VObject _ => true
  end.

(** [a || b] with both operands already evaluated (the right operand of the
    handler is a literal, so evaluating it early is unobservable). *)
Definition logical_or (a b : value) : value :=
  if ToBoolean a then a else b.

(** [process.env]: a mapping from names to strings; reading a name that is
    not set gives [undefined]. *)
Definition env_get (env : gmap jsstring jsstring) (name : jsstring) : value :=
  match env !! name with
  | Some s => VString s
  | None => VUndefined
  end.

(** ** Dates: time values and their calendar fields (ECMA-262, 21.4.1) *)

Definition msPerDay : Z := 86400000.
Definition msPerHour : Z := 3600000.
Definition msPerMinute : Z := 60000.
Definition msPerSecond : Z := 1000.

(** The largest magnitude of a time value: 100,000,000 days either side of
    the epoch. *)
Definition maxTimeValue : Z := 8640000000000000.

Definition Day (t : Z) : Z := t / msPerDay.
Definition TimeWithinDay (t : Z) : Z := t mod msPerDay.

Definition DaysInYear (y : Z) : Z :=
  if negb (y mod 4 =? 0) then 365
  else if negb (y mod 100 =? 0) then 366
  else if negb (y mod 400 =? 0) then 365
  else 366.

Definition DayFromYear (y : Z) : Z :=
  365 * (y - 1970) + (y - 1969) / 4 - (y - 1901) / 100 + (y - 1601) / 400.

Definition TimeFromYear (y : Z) : Z := msPerDay * DayFromYear y.

(** The year of a day number: the largest [y] with [DayFromYear y <= d].
    The quotient by the mean year length is off by at most one, which the
    two comparisons repair (see [YearFromDay_spec]). *)
Definition YearFromDay (d : Z) : Z :=
  let y := 1970 + (400 * d) / 146097 in
  if d <? DayFromYear y then y - 1
  else if DayFromYear (y + 1) <=? d then y + 1
  else y.

Definition YearFromTime (t : Z) : Z := YearFromDay (Day t).

Definition InLeapYear (t : Z) : Z :=
  if DaysInYear (YearFromTime t) =? 366 then 1 else 0.

Definition DayWithinYear (t : Z) : Z := Day t - DayFromYear (YearFromTime t).

(** Month numbers are zero-based, as in the language. *)
Definition MonthFromTime (t : Z) : Z :=
  let d := DayWithinYear t in
  let leap := InLeapYear t in
  if d <? 31 then 0
  else if d <? 59 + leap then 1
  else if d <? 90 + leap then 2
  else if d <? 120 + leap then 3
  else if d <? 151 + leap then 4
  else if d <? 181 + leap then 5
  else if d <? 212 + leap then 6
  else if d <? 243 + leap then 7
  else if d <? 273 + leap then 8
  else if d <? 304 + leap then 9
  else if d <? 334 + leap then 10
  else 11.

Definition DateFromTime (t : Z) : Z :=
  let d := DayWithinYear t in
  let leap := InLeapYear t in
  match MonthFromTime t with
  | 0 => d + 1
  | 1 => d - 30
  | 2 => d - 58 - leap
  | 3 => d - 89 - leap
  | 4 => d - 119 - leap
  | 5 => d - 150 - leap
  | 6 => d - 180 - leap
  | 7 => d - 211 - leap
  | 8 => d - 242 - leap
  | 9 => d - 272 - leap
  | 10 => d - 303 - leap
  | _ => d - 333 - leap
  end.

Definition HourFromTime (t : Z) : Z := (t / msPerHour) mod 24.
Definition MinFromTime (t : Z) : Z := (t / msPerMinute) mod 60.
Definition SecFromTime (t : Z) : Z := (t / msPerSecond) mod 60.
Definition msFromTime (t : Z) : Z := t mod msPerSecond.

(** [TimeClip]: a time beyond the supported range is no instant ([NaN],
    here [None]). *)
Definition TimeClip (t : Z) : option Z :=
  if maxTimeValue <? Z.abs t then None else Some t.

(** [new Date()]: the date object's time value is the current time as the
    system clock gives it, in milliseconds since the epoch. *)
Definition Date_new (clock : Z) : option Z := TimeClip clock.

(** *** The date-time string format *)

Definition digit (d : Z) : code_unit :=
  latin (nth (Z.to_nat d) [x30; x31; x32; x33; x34; x35; x36; x37; x38; x39] x30).

(** The [w] low decimal digits of [n], most significant first. *)
Fixpoint digits (w : nat) (n : Z) : jsstring :=
  match w with
  | O => []
  | S w' => digits w' (n / 10) ++ [digit (n mod 10)]
  end.

(** Years 0 to 9999 take four digits; the others take a sign and six. *)
Definition year_string (y : Z) : jsstring :=
  if (0 <=? y) && (y <=? 9999) then digits 4 y
  else (if y <? 0 then js "-" else js "+") ++ digits 6 (Z.abs y).

Definition iso_string (t : Z) : jsstring :=
  year_string (YearFromTime t) ++ js "-" ++
  digits 2 (MonthFromTime t + 1) ++ js "-" ++
  digits 2 (DateFromTime t) ++ js "T" ++
  digits 2 (HourFromTime t) ++ js ":" ++
  digits 2 (MinFromTime t) ++ js ":" ++
  digits 2 (SecFromTime t) ++ js "." ++
  digits 3 (msFromTime t) ++ js "Z".

(** [Date.prototype.toISOString]: a [RangeError] for an invalid date. *)
Definition toISOString (d : option Z) : completion jsstring :=
  match d with
  | None => Throw RangeError
  | Some tv => Normal (iso_string tv)
  end.

(** ** JSON.stringify (ECMA-262, 25.5.2) *)

Definition hex_digit (n : N) : code_unit :=
  latin (nth (N.to_nat n)
           [x30; x31; x32; x33; x34; x35; x36; x37; x38; x39;
            x61; x62; x63; x64; x65; x66] x30).

Definition hex2 (b : byte) : jsstring :=
  [hex_digit (Byte.to_N b / 16); hex_digit (Byte.to_N b mod 16)].

(** [UnicodeEscape]: a backslash, [u] and four lowercase hexadecimal digits. *)
Definition UnicodeEscape (c : code_unit) : jsstring :=
  BACKSLASH :: latin "u" :: hex2 (cu_hi c) ++ hex2 (cu_lo c).

Definition is_leading_surrogate (c : code_unit) : bool :=
  (216 <=? Byte.to_N (cu_hi c))%N && (Byte.to_N (cu_hi c) <=? 219)%N.

Definition is_trailing_surrogate (c : code_unit) : bool :=
  (220 <=? Byte.to_N (cu_hi c))%N && (Byte.to_N (cu_hi c) <=? 223)%N.

(** The quoted form of one code unit that does not start a surrogate pair. *)
Definition quote_unit (c : code_unit) : jsstring :=
  if cu_eqb c (latin x08) then [BACKSLASH; latin "b"]
  else if cu_eqb c (latin x09) then [BACKSLASH; latin "t"]
  else if cu_eqb c (latin x0a) then [BACKSLASH; latin "n"]
  else if cu_eqb c (latin x0c) then [BACKSLASH; latin "f"]
  else if cu_eqb c (latin x0d) then [BACKSLASH; latin "r"]
  else if cu_eqb c DQUOTE then [BACKSLASH; DQUOTE]
  else if cu_eqb c BACKSLASH then [BACKSLASH; BACKSLASH]
  else if Byte.eqb (cu_hi c) x00 && (Byte.to_N (cu_lo c) <? 32)%N then UnicodeEscape c
  else if is_leading_surrogate c || is_trailing_surrogate c then UnicodeEscape c
  else [c].

(** The string is read by code points: a leading surrogate followed by a
    trailing one is a supplementary code point and is copied; any other
    surrogate is alone and is escaped. *)
Fixpoint quote_units (s : jsstring) : jsstring :=
  match s with
  | [] => []
  | c :: rest =>
      if is_leading_surrogate c then
        match rest with
        | c' :: rest' =>
            if is_trailing_surrogate c' then c :: c' :: quote_units rest'
            else UnicodeEscape c ++ quote_units rest
        | [] => UnicodeEscape c
        end
      else quote_unit c ++ quote_units rest
  end.

Definition QuoteJSONString (s : jsstring) : jsstring :=
  DQUOTE :: quote_units s ++ [DQUOTE].

Fixpoint join (sep : jsstring) (l : list jsstring) : jsstring :=
  match l with
  | [] => []
  | [x] => x
  | x :: rest => x ++ sep ++ join sep rest
  end.

(** Decimal digits of a positive number; [fuel] bounds their count. *)
Fixpoint decimal (fuel : nat) (n : Z) : jsstring :=
  match fuel with
  | O => []
  | S fuel' => (if n <? 10 then [] else decimal fuel' (n / 10)) ++ [digit (n mod 10)]
  end.

(** [Number::toString] on the integral Numbers the model has (plain decimal
    notation, which the language uses below 10^21). *)
Definition Number_toString (n : Z) : jsstring :=
  (if n <? 0 then js "-" else []) ++
  decimal (S (Z.to_nat (Z.log2 (Z.abs n)))) (Z.abs n).

(** [SerializeJSONProperty] without replacer, [toJSON] or indentation:
    [None] is the result [undefined]. *)
Fixpoint SerializeJSONProperty (v : value) : option jsstring :=
  match v with
  | VUndefined => None
  | VNull => Some (js "null")
  | VBool true => Some (js "true")
  | VBool false => Some (js "false")
  | VNumber n => Some (Number_toString n)
  | VString s => Some (QuoteJSONString s)
  | VArray elems =>
      let fix elements (es : list value) : list jsstring :=
        match es with
        | [] => []
        | e :: es' =>
            match SerializeJSONProperty e with
            | Some t => t :: elements es'
            | None => js "null" :: elements es'
            end
        end in
      Some (js "[" ++ join (js ",") (elements elems) ++ js "]")
  | VObject props =>
      let fix members (ps : list (jsstring * value)) : list jsstring :=
        match ps with
        | [] => []
        | (k, x) :: ps' =>
            match SerializeJSONProperty x with
            | Some t => (QuoteJSONString k ++ js ":" ++ t) :: members ps'
            | None => members ps'
            end
        end in
      Some (js "{" ++ join (js ",") (members props) ++ js "}")
  end.

(** The members of an object in property order; a property whose value
    serializes to [undefined] is left out. *)
Fixpoint member_strings (ps : list (jsstring * value)) : list jsstring :=
  match ps with
  | [] => []
  | (k, x) :: ps' =>
      match SerializeJSONProperty x with
      | Some t => (QuoteJSONString k ++ js ":" ++ t) :: member_strings ps'
      | None => member_strings ps'
      end
  end.

(** [SerializeJSONObject]: what [JSON.stringify] gives for an object, always
    a string. *)
Definition SerializeJSONObject (props : list (jsstring * value)) : jsstring :=
  js "{" ++ join (js ",") (member_strings props) ++ js "}".

Definition JSON_stringify (v : value) : option jsstring := SerializeJSONProperty v.

(** ** JSON.parse (ECMA-262, 25.5.1; the grammar of ECMA-404)

    The decoder through which a client observes the body.  Numbers are read
    in their integral form only; a fraction or an exponent is refused. *)

Definition is_ws (c : code_unit) : bool :=
  cu_eqb c (latin x20) || cu_eqb c (latin x09) ||
  cu_eqb c (latin x0a) || cu_eqb c (latin x0d).

Fixpoint skip_ws (s : jsstring) : jsstring :=
  match s with
  | [] => []
  | c :: rest => if is_ws c then skip_ws rest else s
  end.

(** Hexadecimal digits of either case. *)
Definition hex_value (c : code_unit) : option N :=
  if Byte.eqb (cu_hi c) x00 then
    let n := Byte.to_N (cu_lo c) in
    if (48 <=? n)%N && (n <=? 57)%N then Some (n - 48)%N
    else if (97 <=? n)%N && (n <=? 102)%N then Some (n - 87)%N
    else if (65 <=? n)%N && (n <=? 70)%N then Some (n - 55)%N
    else None
  else None.

Definition unhex2 (a b : code_unit) : option byte :=
  match hex_value a, hex_value b with
  | Some x, Some y => Byte.of_N (16 * x + y)
  | _, _ => None
  end.

(** The character a single-letter escape stands for. *)
Definition simple_escape (e : code_unit) : option code_unit :=
  if cu_eqb e DQUOTE then Some DQUOTE
  else if cu_eqb e BACKSLASH then Some BACKSLASH
  else if cu_eqb e (latin "/") then Some (latin "/")
  else if cu_eqb e (latin "b") then Some (latin x08)
  else if cu_eqb e (latin "f") then Some (latin x0c)
  else if cu_eqb e (latin "n") then Some (latin x0a)
  else if cu_eqb e (latin "r") then Some (latin x0d)
  else if cu_eqb e (latin "t") then Some (latin x09)
  else None.

Definition is_control (c : code_unit) : bool :=
  Byte.eqb (cu_hi c) x00 && (Byte.to_N (cu_lo c) <? 32)%N.

(** The characters of a string literal after its opening quote, up to and
    including the closing quote; [acc] holds the decoded units, last first. *)
Fixpoint parse_chars (s : jsstring) (acc : jsstring) : option (jsstring * jsstring) :=
  match s with
  | [] => None
  | c :: rest =>
      if cu_eqb c DQUOTE then Some (rev acc, rest)
      else if cu_eqb c BACKSLASH then
        match rest with
        | [] => None
        | e :: rest1 =>
            if cu_eqb e (latin "u") then
              match rest1 with
              | h1 :: h2 :: h3 :: h4 :: rest2 =>
                  match unhex2 h1 h2, unhex2 h3 h4 with
                  | Some hi, Some lo => parse_chars rest2 (CU hi lo :: acc)
                  | _, _ => None
                  end
              | _ => None
              end
            else
              match simple_escape e with
              | Some c' => parse_chars rest1 (c' :: acc)
              | None => None
              end
        end
      else if is_control c then None
      else parse_chars rest (c :: acc)
  end.

Definition digit_value (c : code_unit) : option Z :=
  if Byte.eqb (cu_hi c) x00 && (48 <=? Byte.to_N (cu_lo c))%N
     && (Byte.to_N (cu_lo c) <=? 57)%N
  then Some (Z.of_N (Byte.to_N (cu_lo c)) - 48)
  else None.

Fixpoint parse_digits_acc (s : jsstring) (acc : Z) : Z * jsstring :=
  match s with
  | [] => (acc, [])
  | c :: rest =>
      match digit_value c with
      | Some d => parse_digits_acc rest (10 * acc + d)
      | None => (acc, s)
      end
  end.

Definition starts_fraction (s : jsstring) : bool :=
  match s with
  | c :: _ => cu_eqb c (latin ".") || cu_eqb c (latin "e") || cu_eqb c (latin "E")
  | [] => false
  end.

Definition parse_number (s : jsstring) : option (Z * jsstring) :=
  let '(sign, s1) :=
    match s with
    | c :: r => if cu_eqb c (latin "-") then (-1, r) else (1, s)
    | [] => (1, s)
    end in
  match s1 with
  | [] => None
  | c :: r =>
      match digit_value c with
      | None => None
      | Some d =>
          let '(n, r') := if d =? 0 then (0, r) else parse_digits_acc r d in
          if starts_fraction r' then None else Some (sign * n, r')
      end
  end.

Fixpoint strip_prefix (p s : jsstring) : option jsstring :=
  match p, s with
  | [], _ => Some s
  | a :: p', b :: s' => if cu_eqb a b then strip_prefix p' s' else None
  | _ :: _, [] => None
  end.

(** [CreateDataProperty] on the ordered property list: a repeated name
    keeps its place and takes the later value. *)
Fixpoint object_define (ps : list (jsstring * value)) (k : jsstring) (v : value)
  : list (jsstring * value) :=
  match ps with
  | [] => [(k, v)]
  | (k', v') :: ps' =>
      if bool_decide (k' = k) then (k, v) :: ps'
      else (k', v') :: object_define ps' k v
  end.

(** One value, then the rest of the text.  [fuel] bounds the number of
    values, members and elements read, so the length of the text is
    always enough. *)
Fixpoint parse_value (fuel : nat) (s : jsstring) : option (value * jsstring) :=
  match fuel with
  | O => None
  | S fuel' =>
      match skip_ws s with
      | [] => None
      | c :: rest =>
          if cu_eqb c DQUOTE then
            match parse_chars rest [] with
            | Some (str, r) => Some (VString str, r)
            | None => None
            end
          else if cu_eqb c (latin "{") then
            match skip_ws rest with
            | c' :: r =>
                if cu_eqb c' (latin "}") then Some (VObject [], r)
                else parse_members fuel' rest []
            | [] => None
            end
          else if cu_eqb c (latin "[") then
            match skip_ws rest with
            | c' :: r =>
                if cu_eqb c' (latin "]") then Some (VArray [], r)
                else parse_elements fuel' rest []
            | [] => None
            end
          else if cu_eqb c (latin "t") then
            option_map (fun r => (VBool true, r)) (strip_prefix (js "rue") rest)
          else if cu_eqb c (latin "f") then
            option_map (fun r => (VBool false, r)) (strip_prefix (js "alse") rest)
          else if cu_eqb c (latin "n") then
            option_map (fun r => (VNull, r)) (strip_prefix (js "ull") rest)
          else
            option_map (fun '(n, r) => (VNumber n, r)) (parse_number (c :: rest))
      end
  end
with parse_members (fuel : nat) (s : jsstring) (acc : list (jsstring * value))
  : option (value * jsstring) :=
  match fuel with
  | O => None
  | S fuel' =>
      match skip_ws s with
      | [] => None
      | q :: rest =>
          if cu_eqb q DQUOTE then
            match parse_chars rest [] with
            | None => None
            | Some (k, r1) =>
                match skip_ws r1 with
                | [] => None
                | colon :: r2 =>
                    if cu_eqb colon (latin ":") then
                      match parse_value fuel' r2 with
                      | None => None
                      | Some (v, r3) =>
                          match skip_ws r3 with
                          | [] => None
                          | sep :: r4 =>
                              if cu_eqb sep (latin ",") then
                                parse_members fuel' r4 (object_define acc k v)
                              else if cu_eqb sep (latin "}") then
                                Some (VObject (object_define acc k v), r4)
                              else None
                          end
                      end
                    else None
                end
            end
          else None
      end
  end
with parse_elements (fuel : nat) (s : jsstring) (acc : list value)
  : option (value * jsstring) :=
  match fuel with
  | O => None
  | S fuel' =>
      match parse_value fuel' s with
      | None => None
      | Some (v, r) =>
          match skip_ws r with
          | [] => None
          | sep :: r' =>
              if cu_eqb sep (latin ",") then parse_elements fuel' r' (acc ++ [v])
              else if cu_eqb sep (latin "]") then Some (VArray (acc ++ [v]), r')
              else None
          end
      end
  end.

(** [JSON.parse]: one value and nothing but white space after it; [None]
    is a [SyntaxError]. *)
Definition JSON_parse (s : jsstring) : option value :=
  match parse_value (S (length s)) s with
  | Some (v, rest) =>
      match skip_ws rest with
      | [] => Some v
      | _ :: _ => None
      end
  | None => None
  end.

Fixpoint assoc (ps : list (jsstring * value)) (k : jsstring) : option value :=
  match ps with
  | [] => None
  | (k', v) :: ps' => if bool_decide (k' = k) then Some v else assoc ps' k
  end.

(** Reading a property of a decoded value: [undefined] when it has none. *)
Definition Get (v : value) (k : jsstring) : value :=
  match v with
  | VObject ps => match assoc ps k with Some x => x | None => VUndefined end
  | _ => VUndefined
  end.

Definition keys (v : value) : list jsstring :=
  match v with
  | VObject ps => map fst ps
  | _ => []
  end.

(** ** Date.parse on the date-time string format (ECMA-262, 21.4.1.32)

    The decoder through which a client reads a timestamp back as an
    instant.  It accepts the complete UTC form, the one [toISOString]
    writes: [YYYY-MM-DDTHH:mm:ss.sssZ], or a signed six-digit year. *)

Fixpoint parse_fixed_digits (w : nat) (s : jsstring) (acc : Z) : option (Z * jsstring) :=
  match w with
  | O => Some (acc, s)
  | S w' =>
      match s with
      | [] => None
      | c :: rest =>
          match digit_value c with
          | Some d => parse_fixed_digits w' rest (10 * acc + d)
          | None => None
          end
      end
  end.

Definition expect (c : code_unit) (s : jsstring) : option jsstring :=
  match s with
  | c' :: rest => if cu_eqb c c' then Some rest else None
  | [] => None
  end.

(** The expanded year [-000000] is not a year. *)
Definition parse_year (s : jsstring) : option (Z * jsstring) :=
  match s with
  | [] => None
  | c :: rest =>
      if cu_eqb c (latin "+") then parse_fixed_digits 6 rest 0
      else if cu_eqb c (latin "-") then
        match parse_fixed_digits 6 rest 0 with
        | Some (y, r) => if y =? 0 then None else Some (- y, r)
        | None => None
        end
      else parse_fixed_digits 4 s 0
  end.

(** Days of the year before the first of month [m] (zero-based). *)
Definition DaysBeforeMonth (m leap : Z) : Z :=
  match m with
  | 0 => 0
  | 1 => 31
  | 2 => 59 + leap
  | 3 => 90 + leap
  | 4 => 120 + leap
  | 5 => 151 + leap
  | 6 => 181 + leap
  | 7 => 212 + leap
  | 8 => 243 + leap
  | 9 => 273 + leap
  | 10 => 304 + leap
  | _ => 334 + leap
  end.

Definition leap_days (y : Z) : Z := DaysInYear y - 365.

Definition DaysInMonth (y m : Z) : Z :=
  if m =? 11 then 31 else DaysBeforeMonth (m + 1) (leap_days y) - DaysBeforeMonth m (leap_days y).

Definition MakeDay (year month date : Z) : Z :=
  let ym := year + month / 12 in
  let mn := month mod 12 in
  DayFromYear ym + DaysBeforeMonth mn (leap_days ym) + date - 1.

Definition MakeTime (hour min sec ms : Z) : Z :=
  hour * msPerHour + min * msPerMinute + sec * msPerSecond + ms.

Definition MakeDate (day time : Z) : Z := day * msPerDay + time.

Definition valid_fields (y mo d h mi s ms : Z) : bool :=
  (1 <=? mo) && (mo <=? 12) && (1 <=? d) && (d <=? DaysInMonth y (mo - 1)) &&
  (mi <=? 59) && (s <=? 59) &&
  ((h <=? 23) || ((h =? 24) && (mi =? 0) && (s =? 0) && (ms =? 0))).

Definition Date_parse (s : jsstring) : option Z :=
  '(y, s) ← parse_year s;
  s ← expect (latin "-") s;
  '(mo, s) ← parse_fixed_digits 2 s 0;
  s ← expect (latin "-") s;
  '(d, s) ← parse_fixed_digits 2 s 0;
  s ← expect (latin "T") s;
  '(h, s) ← parse_fixed_digits 2 s 0;
  s ← expect (latin ":") s;
  '(mi, s) ← parse_fixed_digits 2 s 0;
  s ← expect (latin ":") s;
  '(se, s) ← parse_fixed_digits 2 s 0;
  s ← expect (latin ".") s;
  '(ms, s) ← parse_fixed_digits 3 s 0;
  s ← expect (latin "Z") s;
  match s with
  | [] =>
      if valid_fields y mo d h mi se ms
      then TimeClip (MakeDate (MakeDay y (mo - 1) d) (MakeTime h mi se ms))
      else None
  | _ :: _ => None
  end.

(** ** The handler *)

Record ResponseEnvelope := {
  statusCode : Z;
  headers : gmap jsstring jsstring;
  body : jsstring
}.

Definition STAGE : jsstring := js "STAGE".

(** The object literal handed to [JSON.stringify]. *)
Definition payload (timestamp : jsstring) (env : gmap jsstring jsstring)
  : list (jsstring * value) :=
  [ (js "message", VString (js "Hello World from serverless starter template! Jayvee"));
    (js "timestamp", VString timestamp);
    (js "stage", logical_or (env_get env STAGE) (VString (js "dev"))) ].

(** The body of the arrow function: the object literal is evaluated field
    by field, and [toISOString] is its one call that can complete
    abruptly. *)
Definition main_body (env : gmap jsstring jsstring) (clock : Z)
  : completion ResponseEnvelope :=
  let* timestamp := toISOString (Date_new clock) in
  let response :=
    {| statusCode := 200;
       headers :=
         <[js "Access-Control-Allow-Methods" := js "OPTIONS,POST,GET"]>
           (<[js "Access-Control-Allow-Headers" := js "Content-Type"]>
              (<[js "Access-Control-Allow-Origin" := js "*"]>
                 (<[js "Content-Type" := js "application/json"]> ∅)));
       body := SerializeJSONObject (payload timestamp env) |} in
  Normal response.

(** [main] declares no parameter: whatever the invoking layer passes (an
    event, a context) is dropped.  The environment and the clock are the
    ambient state the body reads. *)
Definition main (args : list value) (env : gmap jsstring jsstring) (clock : Z)
  : promise ResponseEnvelope :=
  async (main_body env clock).

(** A reading of the clock is a time value: an integral number of
    milliseconds within the range of the Date type. *)
Definition is_time_value (t : Z) : Prop := - maxTimeValue <= t <= maxTimeValue.

(** An object whose properties all hold strings, as the handler's payload
    does. *)
Definition string_props (l : list (jsstring * jsstring)) : list (jsstring * value) :=
  map (fun kv => (fst kv, VString (snd kv))) l.

(** The properties a decoder ends with after defining [ps] in order. *)
Definition define_all (ps acc : list (jsstring * value)) : list (jsstring * value) :=
  fold_left (fun a kv => object_define a (fst kv) (snd kv)) ps acc.

(** The text of one member of a string-valued object. *)
Definition member_text (kv : jsstring * jsstring) : jsstring :=
  QuoteJSONString (fst kv) ++ js ":" ++ QuoteJSONString (snd kv).

(** The greeting as the repository's README shows it in its example
    response. *)
Definition documented_message : jsstring :=
  js "Hello World from serverless starter template!".

(** The instant a client reads from the timestamp field of a body. *)
Definition decoded_timestamp (r : ResponseEnvelope) : option Z :=
  match JSON_parse (body r) with
  | Some v =>
      match Get v (js "timestamp") with
      | VString ts => Date_parse ts
      | _ => None
      end
  | None => None
  end.

(** A stage with a quote, a backslash, a line feed and a lone surrogate. *)
Definition awkward_stage : jsstring :=
  js "pr" ++ [DQUOTE; BACKSLASH; latin x0a; CU xd8 x00] ++ js "od".

(** The numeric value of a code unit, [0 .. 65535]. *)
Definition cu_code (c : code_unit) : Z :=
  256 * Z.of_N (Byte.to_N (cu_hi c)) + Z.of_N (Byte.to_N (cu_lo c)).

(** [a <= b] on strings: the comparison of the language, code unit by code
    unit, a proper prefix coming first. *)
Fixpoint jsstring_leb (a b : jsstring) : bool :=
  match a, b with
  | [], _ => true
  | _ :: _, [] => false
  | x :: a', y :: b' =>
      if cu_code x <? cu_code y then true
      else if cu_code x =? cu_code y then jsstring_leb a' b'
      else false
  end.

(** ** Notions used to describe the body *)

(** A code unit that [QuoteJSONString] copies as it is: no quote, no
    backslash, no control character, no surrogate. *)
Definition needs_no_escape (c : code_unit) : bool :=
  negb (cu_eqb c DQUOTE) && negb (cu_eqb c BACKSLASH) && negb (is_control c)
  && negb (is_leading_surrogate c || is_trailing_surrogate c).

(** A string set between two quotes, nothing escaped. *)
Definition quoted (s : jsstring) : jsstring := DQUOTE :: s ++ [DQUOTE].

(** Well-formed UTF-16: every leading surrogate is followed by a trailing
    one, and no trailing surrogate stands elsewhere. *)
Fixpoint well_formed_utf16 (s : jsstring) : bool :=
  match s with
  | [] => true
  | c :: rest =>
      if is_leading_surrogate c then
        match rest with
        | c' :: rest' => is_trailing_surrogate c' && well_formed_utf16 rest'
        | [] => false
        end
      else negb (is_trailing_surrogate c) && well_formed_utf16 rest
  end.

(** The instants of the years 0000 to 9999, whose timestamps take the
    four-digit year. *)
Definition four_digit_era (t : Z) : bool :=
  (-62167219200000 <=? t) && (t <=? 253402300799999).

(** A code unit that is neither a control character nor a surrogate. *)
Definition clean_unit (c : code_unit) : bool :=
  negb (is_control c) && negb (is_leading_surrogate c || is_trailing_surrogate c).

(** * Properties *)

(** ** The calendar *)

Lemma DaysInYear_cases (y : Z) : DaysInYear y = 365 \/ DaysInYear y = 366.
Proof.
  unfold DaysInYear.
  destruct (y mod 4 =? 0), (y mod 100 =? 0), (y mod 400 =? 0); simpl; auto.
Qed.

Lemma DayFromYear_succ (y : Z) :
  DayFromYear (y + 1) = DayFromYear y + DaysInYear y.
Proof.
  unfold DayFromYear, DaysInYear.
  destruct (Z.eqb_spec (y mod 4) 0), (Z.eqb_spec (y mod 100) 0),
    (Z.eqb_spec (y mod 400) 0); simpl;
    Z.div_mod_to_equations; lia.
Qed.

Lemma DayFromYear_mono (y1 y2 : Z) : y1 <= y2 -> DayFromYear y1 <= DayFromYear y2.
Proof. intros H. unfold DayFromYear. Z.div_mod_to_equations. lia. Qed.

(** [YearFromDay d] is the year whose days include day [d]. *)
Lemma YearFromDay_spec (d : Z) :
  DayFromYear (YearFromDay d) <= d < DayFromYear (YearFromDay d + 1).
Proof.
  unfold YearFromDay.
  set (y := 1970 + 400 * d / 146097).
  assert (Hlo : DayFromYear (y - 1) <= d).
  { unfold DayFromYear, y. Z.div_mod_to_equations. lia. }
  assert (Hhi : d < DayFromYear (y + 1 + 1)).
  { unfold DayFromYear, y. Z.div_mod_to_equations. lia. }
  destruct (Z.ltb_spec d (DayFromYear y)).
  - replace (y - 1 + 1) with y by lia. lia.
  - destruct (Z.leb_spec (DayFromYear (y + 1)) d); lia.
Qed.

(** [YearFromTime t] is the largest year that starts at or before [t], which
    is how the language defines it. *)
Lemma YearFromTime_spec (t : Z) :
  TimeFromYear (YearFromTime t) <= t < TimeFromYear (YearFromTime t + 1).
Proof.
  pose proof (YearFromDay_spec (Day t)) as H.
  unfold TimeFromYear, YearFromTime. revert H.
  generalize (DayFromYear (YearFromDay (Day t)))
    (DayFromYear (YearFromDay (Day t) + 1)).
  intros a b H. unfold Day, msPerDay in *. Z.div_mod_to_equations. lia.
Qed.

Lemma YearFromTime_largest (t y : Z) : TimeFromYear y <= t -> y <= YearFromTime t.
Proof.
  intros Hy.
  destruct (Z.le_gt_cases y (YearFromTime t)) as [H | H]; [exact H |].
  pose proof (YearFromTime_spec t) as [_ Hlt].
  pose proof (DayFromYear_mono (YearFromTime t + 1) y ltac:(lia)) as Hm.
  unfold TimeFromYear, msPerDay in *. lia.
Qed.

Lemma DayWithinYear_range (t : Z) :
  0 <= DayWithinYear t < DaysInYear (YearFromTime t).
Proof.
  unfold DayWithinYear, YearFromTime.
  pose proof (YearFromDay_spec (Day t)) as H.
  rewrite DayFromYear_succ in H. lia.
Qed.

Lemma InLeapYear_leap_days (t : Z) : InLeapYear t = leap_days (YearFromTime t).
Proof.
  unfold InLeapYear, leap_days.
  destruct (DaysInYear_cases (YearFromTime t)) as [E | E]; rewrite E; reflexivity.
Qed.

Ltac split_ltb :=
  repeat match goal with
    | |- context [?a <? ?b] => destruct (Z.ltb_spec a b)
    end.

Lemma MonthFromTime_range (t : Z) : 0 <= MonthFromTime t <= 11.
Proof. unfold MonthFromTime. split_ltb; lia. Qed.

Lemma DateFromTime_range (t : Z) :
  1 <= DateFromTime t <= DaysInMonth (YearFromTime t) (MonthFromTime t).
Proof.
  pose proof (DayWithinYear_range t) as Hd.
  pose proof (InLeapYear_leap_days t) as Hl.
  assert (Hy : DaysInYear (YearFromTime t) = 365 + InLeapYear t)
    by (rewrite Hl; unfold leap_days; lia).
  unfold DateFromTime, MonthFromTime, DaysInMonth.
  rewrite <- Hl. rewrite Hy in Hd. clear Hl Hy.
  revert Hd. generalize (DayWithinYear t) (InLeapYear t). intros d l Hd.
  split_ltb; cbn;
    repeat match goal with
      | |- context [DaysBeforeMonth (?a + 1) _] =>
          let v := eval compute in (a + 1) in change (a + 1) with v
      end; cbn; lia.
Qed.

(** The calendar fields of a time value name its day. *)
Lemma MakeDay_fields (t : Z) :
  MakeDay (YearFromTime t) (MonthFromTime t) (DateFromTime t) = Day t.
Proof.
  pose proof (MonthFromTime_range t) as Hm.
  unfold MakeDay.
  rewrite (Z.div_small (MonthFromTime t) 12), (Z.mod_small (MonthFromTime t) 12), Z.add_0_r by lia.
  rewrite <- InLeapYear_leap_days.
  unfold DateFromTime, MonthFromTime.
  assert (Hd : Day t = DayFromYear (YearFromTime t) + DayWithinYear t)
    by (unfold DayWithinYear; lia).
  rewrite Hd. clear Hd.
  generalize (DayWithinYear t) (InLeapYear t) (DayFromYear (YearFromTime t)).
  intros d l y0.
  split_ltb; cbn; lia.
Qed.

Lemma MakeTime_fields (t : Z) :
  MakeTime (HourFromTime t) (MinFromTime t) (SecFromTime t) (msFromTime t)
  = TimeWithinDay t.
Proof.
  unfold MakeTime, HourFromTime, MinFromTime, SecFromTime, msFromTime,
    TimeWithinDay, msPerHour, msPerMinute, msPerSecond, msPerDay.
  Z.div_mod_to_equations. lia.
Qed.

Lemma MakeDate_fields (t : Z) :
  MakeDate (MakeDay (YearFromTime t) (MonthFromTime t) (DateFromTime t))
    (MakeTime (HourFromTime t) (MinFromTime t) (SecFromTime t) (msFromTime t))
  = t.
Proof.
  rewrite MakeDay_fields, MakeTime_fields.
  unfold MakeDate, Day, TimeWithinDay, msPerDay.
  Z.div_mod_to_equations. lia.
Qed.

Lemma YearFromTime_range (t : Z) :
  is_time_value t -> -271821 <= YearFromTime t <= 275760.
Proof.
  unfold is_time_value, maxTimeValue. intros Ht.
  pose proof (YearFromDay_spec (Day t)) as H.
  fold (YearFromTime t) in H.
  assert (Hd : -100000000 <= Day t <= 100000000).
  { unfold Day, msPerDay. Z.div_mod_to_equations. lia. }
  revert H. generalize (YearFromTime t) (Day t) Hd. clear.
  intros y d Hd. unfold DayFromYear. Z.div_mod_to_equations. lia.
Qed.

(** ** Decimal fields *)

Lemma digit_value_digit (d : Z) : 0 <= d <= 9 -> digit_value (digit d) = Some d.
Proof.
  intros H.
  assert (E : d = 0 \/ d = 1 \/ d = 2 \/ d = 3 \/ d = 4 \/ d = 5 \/ d = 6 \/
              d = 7 \/ d = 8 \/ d = 9) by lia.
  repeat (destruct E as [E | E]; [subst d; reflexivity |]).
  subst d; reflexivity.
Qed.

Lemma digit_is_no_sign (d : Z) :
  cu_eqb (digit d) (latin "+") = false /\ cu_eqb (digit d) (latin "-") = false.
Proof.
  unfold digit.
  generalize (Z.to_nat d). intros n.
  do 10 (destruct n as [| n]; [split; reflexivity |]).
  destruct n; split; reflexivity.
Qed.

Lemma digits_cons (w : nat) (n : Z) : exists d s, digits (S w) n = digit d :: s.
Proof.
  revert n. induction w as [| w IH]; intros n.
  - exists (n mod 10), []. reflexivity.
  - destruct (IH (n / 10)) as (d & s & E).
    exists d, (s ++ [digit (n mod 10)]).
    change (digits (S (S w)) n) with (digits (S w) (n / 10) ++ [digit (n mod 10)]).
    now rewrite E.
Qed.

Lemma parse_fixed_digits_snoc (w : nat) (s : jsstring) (acc : Z) :
  parse_fixed_digits (S w) s acc =
  match parse_fixed_digits w s acc with
  | Some (a, c :: r) =>
      match digit_value c with
      | Some d => Some (10 * a + d, r)
      | None => None
      end
  | _ => None
  end.
Proof.
  revert s acc. induction w as [| w IH]; intros s acc.
  - destruct s as [| c r]; reflexivity.
  - destruct s as [| c r]; [reflexivity |].
    change (parse_fixed_digits (S (S w)) (c :: r) acc) with
      (match digit_value c with
       | Some d => parse_fixed_digits (S w) r (10 * acc + d)
       | None => None
       end).
    change (parse_fixed_digits (S w) (c :: r) acc) with
      (match digit_value c with
       | Some d => parse_fixed_digits w r (10 * acc + d)
       | None => None
       end).
    destruct (digit_value c) as [d |]; [apply IH | reflexivity].
Qed.

(** Reading [w] digits gives back the number they were written from. *)
Lemma parse_fixed_digits_digits (w : nat) (n : Z) (rest : jsstring) (acc : Z) :
  0 <= n < 10 ^ Z.of_nat w ->
  parse_fixed_digits w (digits w n ++ rest) acc
  = Some (acc * 10 ^ Z.of_nat w + n, rest).
Proof.
  revert n rest acc. induction w as [| w IH]; intros n rest acc Hn.
  - simpl in *. f_equal. f_equal. lia.
  - rewrite Nat2Z.inj_succ, Z.pow_succ_r in * by lia.
    rewrite parse_fixed_digits_snoc.
    change (digits (S w) n) with (digits w (n / 10) ++ [digit (n mod 10)]).
    rewrite <- app_assoc. rewrite IH by (Z.div_mod_to_equations; lia).
    cbn [app].
    rewrite digit_value_digit by (Z.div_mod_to_equations; lia).
    f_equal. f_equal. Z.div_mod_to_equations. lia.
Qed.

Lemma parse_year_string (y : Z) (rest : jsstring) :
  -999999 <= y <= 999999 ->
  parse_year (year_string y ++ rest) = Some (y, rest).
Proof.
  intros Hy. unfold year_string.
  destruct (Z.leb_spec 0 y) as [H0 | H0]; cbn [andb].
  - destruct (Z.leb_spec y 9999) as [H1 | H1].
    + destruct (digits_cons 3 y) as (d & s & E).
      assert (P : parse_year (digits 4 y ++ rest)
                  = parse_fixed_digits 4 (digits 4 y ++ rest) 0).
      { rewrite E. cbn [app]. unfold parse_year.
        destruct (digit_is_no_sign d) as [Hp Hm].
        now rewrite Hp, Hm. }
      rewrite P, parse_fixed_digits_digits by (simpl; lia).
      f_equal.
    + destruct (Z.ltb_spec y 0); [lia |].
      change ((js "+" ++ digits 6 (Z.abs y)) ++ rest)
        with (latin "+" :: digits 6 (Z.abs y) ++ rest).
      unfold parse_year.
      change (cu_eqb (latin "+") (latin "+")) with true. cbv iota.
      rewrite parse_fixed_digits_digits by (simpl; lia).
      f_equal. f_equal. lia.
  - destruct (Z.ltb_spec y 0); [| lia].
    change ((js "-" ++ digits 6 (Z.abs y)) ++ rest)
      with (latin "-" :: digits 6 (Z.abs y) ++ rest).
    unfold parse_year.
    change (cu_eqb (latin "-") (latin "+")) with false.
    change (cu_eqb (latin "-") (latin "-")) with true. cbv iota.
    rewrite parse_fixed_digits_digits by (simpl; lia).
    destruct (Z.eqb_spec (0 * 10 ^ Z.of_nat 6 + Z.abs y) 0); [lia |].
    f_equal. f_equal. lia.
Qed.

(** ** Timestamps denote the instant they were written from *)

Lemma DaysInMonth_range (y m : Z) : 0 <= m <= 11 -> 28 <= DaysInMonth y m <= 31.
Proof.
  intros Hm.
  assert (E : m = 0 \/ m = 1 \/ m = 2 \/ m = 3 \/ m = 4 \/ m = 5 \/ m = 6 \/
              m = 7 \/ m = 8 \/ m = 9 \/ m = 10 \/ m = 11) by lia.
  unfold DaysInMonth, leap_days.
  destruct (DaysInYear_cases y) as [L | L]; rewrite L;
    repeat (destruct E as [E | E]; [subst m; vm_compute; intuition discriminate |]);
    subst m; vm_compute; intuition discriminate.
Qed.

Lemma valid_fields_of_time (t : Z) :
  valid_fields (YearFromTime t) (MonthFromTime t + 1) (DateFromTime t)
    (HourFromTime t) (MinFromTime t) (SecFromTime t) (msFromTime t) = true.
Proof.
  unfold valid_fields.
  replace (MonthFromTime t + 1 - 1) with (MonthFromTime t) by lia.
  pose proof (MonthFromTime_range t) as Hm.
  pose proof (DateFromTime_range t) as Hd.
  assert (Hh : HourFromTime t <= 23)
    by (unfold HourFromTime; Z.div_mod_to_equations; lia).
  assert (Hi : MinFromTime t <= 59)
    by (unfold MinFromTime; Z.div_mod_to_equations; lia).
  assert (Hs : SecFromTime t <= 59)
    by (unfold SecFromTime; Z.div_mod_to_equations; lia).
  repeat (apply andb_true_intro; split); try (apply Z.leb_le; lia).
  apply orb_true_intro. left. apply Z.leb_le. lia.
Qed.

Lemma TimeClip_time_value (t : Z) : is_time_value t -> TimeClip t = Some t.
Proof.
  unfold is_time_value, TimeClip. intros H.
  destruct (Z.ltb_spec maxTimeValue (Z.abs t)); [lia | reflexivity].
Qed.

(** [Date.parse] inverts [toISOString] on every time value. *)
Lemma Date_parse_iso_string (t : Z) :
  is_time_value t -> Date_parse (iso_string t) = Some t.
Proof.
  intros Ht.
  pose proof (YearFromTime_range t Ht) as Hy.
  pose proof (MonthFromTime_range t) as Hm.
  pose proof (DateFromTime_range t) as Hd.
  pose proof (DaysInMonth_range (YearFromTime t) (MonthFromTime t) Hm) as Hdm.
  assert (Hh : 0 <= HourFromTime t < 100)
    by (unfold HourFromTime; Z.div_mod_to_equations; lia).
  assert (Hi : 0 <= MinFromTime t < 100)
    by (unfold MinFromTime; Z.div_mod_to_equations; lia).
  assert (Hs : 0 <= SecFromTime t < 100)
    by (unfold SecFromTime; Z.div_mod_to_equations; lia).
  assert (Hms : 0 <= msFromTime t < 1000)
    by (unfold msFromTime, msPerSecond; Z.div_mod_to_equations; lia).
  unfold Date_parse, iso_string.
  rewrite parse_year_string by lia. cbn [mbind option_bind].
  repeat (change (expect ?c (js ?l ++ ?r)) with (Some r); cbn [mbind option_bind];
          rewrite parse_fixed_digits_digits by (simpl; lia); cbn [mbind option_bind]).
  change (expect (latin "Z") (js "Z")) with (Some (@nil code_unit)).
  cbn [mbind option_bind].
  rewrite !Z.mul_0_l, !Z.add_0_l.
  rewrite valid_fields_of_time.
  replace (MonthFromTime t + 1 - 1) with (MonthFromTime t) by lia.
  rewrite MakeDate_fields. now apply TimeClip_time_value.
Qed.

(** ** String literals *)

Lemma unhex2_hex2 (b : byte) :
  unhex2 (hex_digit (Byte.to_N b / 16)) (hex_digit (Byte.to_N b mod 16)) = Some b.
Proof. destruct b; reflexivity. Qed.

Lemma parse_chars_UnicodeEscape (c : code_unit) (rest acc : jsstring) :
  parse_chars (UnicodeEscape c ++ rest) acc = parse_chars rest (c :: acc).
Proof.
  destruct c as [hi lo]. unfold UnicodeEscape, hex2. cbn [app cu_hi cu_lo].
  cbn [parse_chars].
  change (cu_eqb BACKSLASH DQUOTE) with false.
  change (cu_eqb BACKSLASH BACKSLASH) with true.
  change (cu_eqb (latin "u") (latin "u")) with true. cbv iota.
  now rewrite !unhex2_hex2.
Qed.

(** A code unit that is neither a quote, a backslash nor a control
    character stands for itself. *)
Lemma parse_chars_surrogate (c : code_unit) (rest acc : jsstring) :
  is_leading_surrogate c || is_trailing_surrogate c = true ->
  parse_chars (c :: rest) acc = parse_chars rest (c :: acc).
Proof.
  destruct c as [hi lo]. intros H.
  destruct hi; try (vm_compute in H; discriminate H); reflexivity.
Qed.

Lemma parse_chars_quote_unit (c : code_unit) (rest acc : jsstring) :
  parse_chars (quote_unit c ++ rest) acc = parse_chars rest (c :: acc).
Proof.
  destruct c as [hi lo].
  destruct hi;
    [ destruct lo; reflexivity
    | first [ reflexivity
            | change (quote_unit ?c) with (UnicodeEscape c);
              apply parse_chars_UnicodeEscape ] .. ].
Qed.

(** Reading a quoted string gives back its code units, whatever they are. *)
Lemma parse_chars_quote_units (s rest acc : jsstring) :
  parse_chars (quote_units s ++ DQUOTE :: rest) acc = Some (rev acc ++ s, rest).
Proof.
  remember (length s) as n eqn:Hn.
  assert (Hlen : (length s <= n)%nat) by lia. clear Hn.
  revert s acc Hlen.
  induction n as [| n IH]; intros s acc Hlen.
  - destruct s; [| simpl in Hlen; lia].
    simpl. now rewrite app_nil_r.
  - destruct s as [| c s].
    { simpl. now rewrite app_nil_r. }
    simpl in Hlen.
    assert (Hcons : forall (a : code_unit) (l r : jsstring),
               rev (a :: l) ++ r = rev l ++ a :: r).
    { intros a l r. simpl. now rewrite <- app_assoc. }
    cbn [quote_units].
    destruct (is_leading_surrogate c) eqn:Hlead.
    + destruct s as [| c' s].
      * rewrite parse_chars_UnicodeEscape. reflexivity.
      * destruct (is_trailing_surrogate c') eqn:Htrail.
        -- cbn [app].
           rewrite parse_chars_surrogate by (rewrite Hlead; reflexivity).
           rewrite parse_chars_surrogate by (rewrite Htrail; apply orb_true_r).
           simpl in Hlen. rewrite IH by lia.
           now rewrite !Hcons.
        -- rewrite <- app_assoc, parse_chars_UnicodeEscape.
           rewrite IH by lia. now rewrite Hcons.
    + rewrite <- app_assoc, parse_chars_quote_unit.
      rewrite IH by lia. now rewrite Hcons.
Qed.

Lemma skip_ws_DQUOTE (s : jsstring) : skip_ws (DQUOTE :: s) = DQUOTE :: s.
Proof. reflexivity. Qed.

Lemma QuoteJSONString_app (s rest : jsstring) :
  QuoteJSONString s ++ rest = DQUOTE :: quote_units s ++ DQUOTE :: rest.
Proof. unfold QuoteJSONString. simpl. now rewrite <- app_assoc. Qed.

Lemma parse_value_string (fuel : nat) (s rest : jsstring) :
  parse_value (S fuel) (QuoteJSONString s ++ rest) = Some (VString s, rest).
Proof.
  rewrite QuoteJSONString_app.
  cbn [parse_value]. rewrite skip_ws_DQUOTE.
  change (cu_eqb DQUOTE DQUOTE) with true. cbv iota.
  now rewrite parse_chars_quote_units.
Qed.

(** ** Objects *)


Lemma member_strings_string_props (l : list (jsstring * jsstring)) :
  member_strings (string_props l)
  = map (fun kv => QuoteJSONString (fst kv) ++ js ":" ++ QuoteJSONString (snd kv)) l.
Proof.
  induction l as [| [k v] l IH]; [reflexivity |].
  cbn [string_props map member_strings fst snd SerializeJSONProperty].
  f_equal. exact IH.
Qed.

(** One member and the separator after it. *)
Lemma parse_members_member (f : nat) (k v r : jsstring) (sep : code_unit)
    (acc : list (jsstring * value)) :
  is_ws sep = false ->
  parse_members (S (S f))
    (QuoteJSONString k ++ js ":" ++ QuoteJSONString v ++ sep :: r) acc
  = if cu_eqb sep (latin ",")
    then parse_members (S f) r (object_define acc k (VString v))
    else if cu_eqb sep (latin "}")
         then Some (VObject (object_define acc k (VString v)), r)
         else None.
Proof.
  intros Hsep.
  rewrite QuoteJSONString_app.
  cbn [parse_members]. rewrite skip_ws_DQUOTE.
  change (cu_eqb DQUOTE DQUOTE) with true. cbv iota.
  rewrite parse_chars_quote_units.
  change (rev [] ++ k) with k.
  change (js ":" ++ QuoteJSONString v ++ sep :: r)
    with (latin ":" :: QuoteJSONString v ++ sep :: r).
  change (skip_ws (latin ":" :: ?x)) with (latin ":" :: x).
  change (cu_eqb (latin ":") (latin ":")) with true. cbv iota.
  rewrite parse_value_string.
  cbn [skip_ws]. rewrite Hsep. reflexivity.
Qed.

Lemma parse_members_strings (l : list (jsstring * jsstring)) :
  forall (kv : jsstring * jsstring) (acc : list (jsstring * value))
         (rest : jsstring) (fuel : nat),
    (length l + 2 <= fuel)%nat ->
    parse_members fuel
      (join (js ",") (map member_text (kv :: l)) ++ latin "}" :: rest) acc
    = Some (VObject (define_all (string_props (kv :: l)) acc), rest).
Proof.
  induction l as [| kv' l IH]; intros [k v] acc rest fuel Hfuel.
  - destruct fuel as [| [| f]]; try (simpl in Hfuel; lia).
    cbn [map join]. unfold member_text. cbn [fst snd].
    rewrite <- !app_assoc.
    rewrite parse_members_member by reflexivity.
    reflexivity.
  - destruct fuel as [| [| f]]; try (simpl in Hfuel; lia).
    change (join (js ",") (map member_text ((k, v) :: kv' :: l)))
      with (member_text (k, v) ++ js "," ++ join (js ",") (map member_text (kv' :: l))).
    unfold member_text at 1. cbn [fst snd].
    rewrite <- !app_assoc.
    change (js "," ++ ?x) with (latin "," :: x).
    rewrite parse_members_member by reflexivity.
    change (cu_eqb (latin ",") (latin ",")) with true. cbv iota.
    rewrite IH by (simpl in Hfuel; lia).
    reflexivity.
Qed.

Lemma join_length (sep : jsstring) (xs : list jsstring) :
  Forall (fun x => (1 <= length x)%nat) xs ->
  (length xs <= length (join sep xs))%nat.
Proof.
  induction 1 as [| x xs Hx Hxs IH]; [simpl; lia |].
  destruct xs as [| y ys]; [simpl; lia |].
  change (join sep (x :: y :: ys)) with (x ++ sep ++ join sep (y :: ys)).
  rewrite !length_app. simpl in *. lia.
Qed.

Lemma member_text_length (kv : jsstring * jsstring) : (1 <= length (member_text kv))%nat.
Proof. unfold member_text, QuoteJSONString. simpl. lia. Qed.

Lemma parse_value_object_members (fuel : nat) (tl : jsstring) :
  parse_value (S fuel) (latin "{" :: DQUOTE :: tl) = parse_members fuel (DQUOTE :: tl) [].
Proof. reflexivity. Qed.

(** Decoding the serialization of a string-valued object gives its
    properties, defined one after the other. *)
Lemma JSON_parse_SerializeJSONObject (l : list (jsstring * jsstring)) :
  JSON_parse (SerializeJSONObject (string_props l))
  = Some (VObject (define_all (string_props l) [])).
Proof.
  unfold JSON_parse, SerializeJSONObject.
  rewrite member_strings_string_props.
  fold member_text.
  destruct l as [| kv l]; [reflexivity |].
  set (members := join (js ",") (map member_text (kv :: l))).
  assert (Hlen : (S (length l) <= length members)%nat).
  { pose proof (join_length (js ",") (map member_text (kv :: l))) as H.
    rewrite length_map in H. apply H. clear H.
    generalize (kv :: l). intros l0.
    induction l0 as [| kv0 l0 IH]; constructor;
      [apply member_text_length | exact IH]. }
  assert (Hq : exists tl, members = DQUOTE :: tl).
  { unfold members. destruct kv as [k v], l as [| kv' l']; cbn; eauto. }
  destruct Hq as [tl Hq].
  change (js "{" ++ members ++ js "}") with (latin "{" :: members ++ [latin "}"]).
  assert (Hf : (length l + 2 <= length (members ++ [latin "}"]))%nat)
    by (rewrite length_app; simpl; lia).
  cbn [length]. revert Hf.
  generalize (length (members ++ [latin "}"])). intros n Hf.
  rewrite Hq. cbn [app]. rewrite parse_value_object_members.
  change (DQUOTE :: tl ++ [latin "}"]) with ((DQUOTE :: tl) ++ [latin "}"]).
  rewrite <- Hq. subst members.
  rewrite parse_members_strings by lia.
  reflexivity.
Qed.

Lemma object_define_fresh (acc : list (jsstring * value)) (k : jsstring) (v : value) :
  ~ In k (map fst acc) -> object_define acc k v = acc ++ [(k, v)].
Proof.
  induction acc as [| [k' v'] acc IH]; intros Hk; [reflexivity |].
  cbn [object_define]. simpl in Hk.
  rewrite bool_decide_eq_false_2 by tauto.
  rewrite IH by tauto. reflexivity.
Qed.

Lemma define_all_fresh (ps acc : list (jsstring * value)) :
  List.NoDup (map fst (acc ++ ps)) -> define_all ps acc = acc ++ ps.
Proof.
  revert acc. induction ps as [| [k v] ps IH]; intros acc Hnd.
  - simpl. now rewrite app_nil_r.
  - cbn [define_all fold_left fst snd].
    fold (define_all ps (object_define acc k v)).
    assert (Hk : ~ In k (map fst acc)).
    { rewrite map_app in Hnd. simpl in Hnd.
      apply List.NoDup_remove_2 in Hnd. rewrite in_app_iff in Hnd. tauto. }
    rewrite object_define_fresh by exact Hk.
    rewrite IH; rewrite <- app_assoc; [reflexivity | exact Hnd].
Qed.

(** With distinct property names the round trip is exact. *)
Lemma JSON_parse_stringify_strings (l : list (jsstring * jsstring)) :
  List.NoDup (map fst l) ->
  JSON_parse (SerializeJSONObject (string_props l)) = Some (VObject (string_props l)).
Proof.
  intros Hnd. rewrite JSON_parse_SerializeJSONObject.
  rewrite define_all_fresh; [reflexivity |].
  unfold string_props. simpl. rewrite map_map. exact Hnd.
Qed.

(** ** The handler *)

Lemma stage_cases (env : gmap jsstring jsstring) :
  exists s : jsstring,
    logical_or (env_get env STAGE) (VString (js "dev")) = VString s /\
    s <> [] /\
    (env !! STAGE = None \/ env !! STAGE = Some [] -> s = js "dev") /\
    (forall S : jsstring, env !! STAGE = Some S -> S <> [] -> s = S).
Proof.
  unfold logical_or, env_get.
  destruct (env !! STAGE) as [[| c S] |] eqn:E; cbn [ToBoolean].
  - exists (js "dev").
    split; [reflexivity |]. split; [discriminate |]. split; [reflexivity |].
    intros S' [= <-] H. now elim H.
  - exists (c :: S).
    split; [reflexivity |]. split; [discriminate |]. split.
    + intros [H | H]; discriminate H.
    + intros S' [= <-] _. reflexivity.
  - exists (js "dev").
    split; [reflexivity |]. split; [discriminate |]. split; [reflexivity |].
    intros S' H. discriminate H.
Qed.

Lemma payload_string_props (ts : jsstring) (env : gmap jsstring jsstring) (s : jsstring) :
  logical_or (env_get env STAGE) (VString (js "dev")) = VString s ->
  payload ts env =
  string_props
    [ (js "message", js "Hello World from serverless starter template! Jayvee");
      (js "timestamp", ts);
      (js "stage", s) ].
Proof. intros H. unfold payload. rewrite H. reflexivity. Qed.

(** Decoding the body gives the payload back, for any timestamp and any
    environment. *)
Lemma JSON_parse_payload (ts : jsstring) (env : gmap jsstring jsstring) :
  JSON_parse (SerializeJSONObject (payload ts env)) = Some (VObject (payload ts env)).
Proof.
  destruct (stage_cases env) as (s & Hs & _).
  rewrite (payload_string_props ts env s Hs).
  apply JSON_parse_stringify_strings.
  apply NoDup_ListNoDup. cbn [map fst].
  apply (bool_decide_unpack _). vm_compute. exact I.
Qed.

(** On a clock reading that is a time value the handler's promise is
    fulfilled, with this envelope. *)
Lemma main_fulfilled (args : list value) (env : gmap jsstring jsstring) (clock : Z) :
  is_time_value clock ->
  main args env clock =
  Fulfilled
    {| statusCode := 200;
       headers :=
         <[js "Access-Control-Allow-Methods" := js "OPTIONS,POST,GET"]>
           (<[js "Access-Control-Allow-Headers" := js "Content-Type"]>
              (<[js "Access-Control-Allow-Origin" := js "*"]>
                 (<[js "Content-Type" := js "application/json"]> ∅)));
       body := SerializeJSONObject (payload (iso_string clock) env) |}.
Proof.
  intros Ht. unfold main, main_body, Date_new.
  rewrite (TimeClip_time_value clock Ht). reflexivity.
Qed.

Lemma time_value_example : is_time_value 1753543616168.
Proof. unfold is_time_value, maxTimeValue. lia. Defined.

(** C1. The decoded body's message field is the handler's greeting, which
    carries the suffix [ Jayvee]: at an invocation with [STAGE] unset it is
    not the greeting of the documented response. *)
Theorem main_message_field :
  exists r v,
    main [] ∅ 1753543616168 = Fulfilled r /\
    JSON_parse (body r) = Some v /\
    Get v (js "message")
    = VString (js "Hello World from serverless starter template! Jayvee") /\
    Get v (js "message") <> VString documented_message.
Proof.
  eexists _, _. split; [apply main_fulfilled, time_value_example |].
  cbn [body]. split; [apply JSON_parse_payload |].
  split; [reflexivity |].
  intros H. vm_compute in H. discriminate H.
Qed.

(** C2. With [STAGE] absent or empty, the decoded stage field is ["dev"]. *)
Theorem main_stage_default (args : list value) (env : gmap jsstring jsstring) (clock : Z) :
  is_time_value clock ->
  env !! STAGE = None \/ env !! STAGE = Some [] ->
  exists r v,
    main args env clock = Fulfilled r /\
    JSON_parse (body r) = Some v /\
    Get v (js "stage") = VString (js "dev").
Proof.
  intros Ht Henv.
  eexists _, _. split; [apply main_fulfilled, Ht |].
  cbn [body]. split; [apply JSON_parse_payload |].
  destruct (stage_cases env) as (s & Hs & _ & Hdev & _).
  rewrite (payload_string_props _ env s Hs), (Hdev Henv). reflexivity.
Qed.

Lemma main_stage_default_witness :
  is_time_value 1753543616168 /\
  (((<[STAGE := []]> ∅ : gmap jsstring jsstring) !! STAGE = None \/
    (<[STAGE := []]> ∅ : gmap jsstring jsstring) !! STAGE = Some [])) /\
  exists r v,
    main [VObject []] (<[STAGE := []]> ∅) 1753543616168 = Fulfilled r /\
    JSON_parse (body r) = Some v /\
    Get v (js "stage") = VString (js "dev").
Proof.
  split; [unfold is_time_value, maxTimeValue; lia |].
  split; [right; vm_compute; reflexivity |].
  apply (main_stage_default [VObject []] (<[STAGE := []]> ∅) 1753543616168).
  - unfold is_time_value, maxTimeValue. lia.
  - right. vm_compute. reflexivity.
Defined.

(** C3. With [STAGE] set to a non-empty string [S], the decoded stage field
    is [S], code unit for code unit; and in every environment the decoded
    stage field is a string that is not empty (so never null, never
    undefined). *)
Theorem main_stage_from_env (args : list value) (env : gmap jsstring jsstring) (clock : Z) :
  is_time_value clock ->
  exists r v,
    main args env clock = Fulfilled r /\
    JSON_parse (body r) = Some v /\
    (forall S : jsstring,
        env !! STAGE = Some S -> S <> [] -> Get v (js "stage") = VString S) /\
    (exists s : jsstring, Get v (js "stage") = VString s /\ s <> []).
Proof.
  intros Ht.
  eexists _, _. split; [apply main_fulfilled, Ht |].
  cbn [body]. split; [apply JSON_parse_payload |].
  destruct (stage_cases env) as (s & Hs & Hne & _ & Hset).
  rewrite (payload_string_props _ env s Hs).
  split.
  - intros S HS HSne. rewrite (Hset S HS HSne). reflexivity.
  - exists s. split; [reflexivity | exact Hne].
Qed.

Lemma main_stage_from_env_witness :
  is_time_value 1753543616168 /\
  exists r v,
    main [] (<[STAGE := awkward_stage]> ∅) 1753543616168 = Fulfilled r /\
    JSON_parse (body r) = Some v /\
    (forall S : jsstring,
        (<[STAGE := awkward_stage]> ∅ : gmap jsstring jsstring) !! STAGE = Some S ->
        S <> [] -> Get v (js "stage") = VString S) /\
    (exists s : jsstring, Get v (js "stage") = VString s /\ s <> []).
Proof.
  split; [unfold is_time_value, maxTimeValue; lia |].
  apply (main_stage_from_env [] (<[STAGE := awkward_stage]> ∅) 1753543616168).
  unfold is_time_value, maxTimeValue. lia.
Defined.

(** C4. The headers are the four fixed pairs and nothing else: a name is
    bound to a value exactly when the pair is one of the four. *)
Theorem main_headers (args : list value) (env : gmap jsstring jsstring) (clock : Z) :
  is_time_value clock ->
  exists r,
    main args env clock = Fulfilled r /\
    size (headers r) = 4%nat /\
    forall k v : jsstring,
      headers r !! k = Some v <->
      In (k, v)
        [ (js "Content-Type", js "application/json");
          (js "Access-Control-Allow-Origin", js "*");
          (js "Access-Control-Allow-Headers", js "Content-Type");
          (js "Access-Control-Allow-Methods", js "OPTIONS,POST,GET") ].
Proof.
  intros Ht.
  eexists. split; [apply main_fulfilled, Ht |].
  cbn [headers]. split; [vm_compute; reflexivity |].
  intros k v.
  rewrite !lookup_insert_Some, lookup_empty. cbn [In].
  split.
  - intros [[<- <-] | [_ [[<- <-] | [_ [[<- <-] | [_ [[<- <-] | [_ H]]]]]]]];
      [tauto .. | discriminate H].
  - intros [[= <- <-] | [[= <- <-] | [[= <- <-] | [[= <- <-] | []]]]].
    + right. split; [intros H; vm_compute in H; discriminate H |].
      right. split; [intros H; vm_compute in H; discriminate H |].
      right. split; [intros H; vm_compute in H; discriminate H |].
      left. split; reflexivity.
    + right. split; [intros H; vm_compute in H; discriminate H |].
      right. split; [intros H; vm_compute in H; discriminate H |].
      left. split; reflexivity.
    + right. split; [intros H; vm_compute in H; discriminate H |].
      left. split; reflexivity.
    + left. split; reflexivity.
Qed.

Lemma main_headers_witness :
  is_time_value 1753543616168 /\
  exists r,
    main [] ∅ 1753543616168 = Fulfilled r /\
    size (headers r) = 4%nat /\
    forall k v : jsstring,
      headers r !! k = Some v <->
      In (k, v)
        [ (js "Content-Type", js "application/json");
          (js "Access-Control-Allow-Origin", js "*");
          (js "Access-Control-Allow-Headers", js "Content-Type");
          (js "Access-Control-Allow-Methods", js "OPTIONS,POST,GET") ].
Proof.
  split; [unfold is_time_value, maxTimeValue; lia |].
  apply (main_headers [] ∅ 1753543616168).
  unfold is_time_value, maxTimeValue. lia.
Defined.

(** C5. The status code of the envelope is 200. *)
Theorem main_statusCode (args : list value) (env : gmap jsstring jsstring) (clock : Z) :
  is_time_value clock ->
  exists r, main args env clock = Fulfilled r /\ statusCode r = 200.
Proof.
  intros Ht. eexists. split; [apply main_fulfilled, Ht | reflexivity].
Qed.

Lemma main_statusCode_witness :
  is_time_value 1753543616168 /\
  exists r, main [] ∅ 1753543616168 = Fulfilled r /\ statusCode r = 200.
Proof.
  split; [unfold is_time_value, maxTimeValue; lia |].
  apply (main_statusCode [] ∅ 1753543616168).
  unfold is_time_value, maxTimeValue. lia.
Defined.

(** C6. The body decodes to an object with exactly the keys [message],
    [timestamp], [stage], in that order; it is the serialization of that
    object, member after member with no white space between, and it ends
    with the closing brace. *)
Theorem main_body_keys (args : list value) (env : gmap jsstring jsstring) (clock : Z) :
  is_time_value clock ->
  exists r v,
    main args env clock = Fulfilled r /\
    JSON_parse (body r) = Some v /\
    keys v = [js "message"; js "timestamp"; js "stage"] /\
    JSON_stringify v = Some (body r) /\
    (exists m t s : jsstring,
        body r =
        js "{" ++ QuoteJSONString (js "message") ++ js ":" ++ QuoteJSONString m ++
        js "," ++ QuoteJSONString (js "timestamp") ++ js ":" ++ QuoteJSONString t ++
        js "," ++ QuoteJSONString (js "stage") ++ js ":" ++ QuoteJSONString s ++
        js "}") /\
    last (body r) = Some (latin "}") /\
    is_ws (latin "}") = false.
Proof.
  intros Ht.
  eexists _, _. split; [apply main_fulfilled, Ht |].
  cbn [body]. split; [apply JSON_parse_payload |].
  split; [reflexivity |].
  split; [reflexivity |].
  destruct (stage_cases env) as (s & Hs & _).
  rewrite (payload_string_props _ env s Hs).
  split; [| split; [| reflexivity]].
  - eexists _, _, _. unfold SerializeJSONObject.
    rewrite member_strings_string_props. cbn [map join fst snd].
    rewrite <- !app_assoc. reflexivity.
  - unfold SerializeJSONObject.
    change (js "}") with [latin "}"].
    rewrite !app_assoc. apply last_snoc.
Qed.

Lemma main_body_keys_witness :
  is_time_value 1753543616168 /\
  exists r v,
    main [] ∅ 1753543616168 = Fulfilled r /\
    JSON_parse (body r) = Some v /\
    keys v = [js "message"; js "timestamp"; js "stage"] /\
    JSON_stringify v = Some (body r) /\
    (exists m t s : jsstring,
        body r =
        js "{" ++ QuoteJSONString (js "message") ++ js ":" ++ QuoteJSONString m ++
        js "," ++ QuoteJSONString (js "timestamp") ++ js ":" ++ QuoteJSONString t ++
        js "," ++ QuoteJSONString (js "stage") ++ js ":" ++ QuoteJSONString s ++
        js "}") /\
    last (body r) = Some (latin "}") /\
    is_ws (latin "}") = false.
Proof.
  split; [unfold is_time_value, maxTimeValue; lia |].
  apply (main_body_keys [] ∅ 1753543616168).
  unfold is_time_value, maxTimeValue. lia.
Defined.

(** C7. For every request, every environment and every clock reading that
    is a time value, the handler's promise is fulfilled with an envelope and
    is not rejected. *)
Theorem main_total (args : list value) (env : gmap jsstring jsstring) (clock : Z) :
  is_time_value clock ->
  (exists r, main args env clock = Fulfilled r) /\
  (forall e, main args env clock <> Rejected e).
Proof.
  intros Ht. rewrite (main_fulfilled args env clock Ht).
  split; [eexists; reflexivity | intros e H; discriminate H].
Qed.

Lemma main_total_witness :
  is_time_value (- maxTimeValue) /\
  (exists r, main [VNull; VObject []] (<[STAGE := []]> ∅) (- maxTimeValue) = Fulfilled r) /\
  (forall e, main [VNull; VObject []] (<[STAGE := []]> ∅) (- maxTimeValue) <> Rejected e).
Proof.
  assert (H : is_time_value (- maxTimeValue))
    by (unfold is_time_value, maxTimeValue; lia).
  split; [exact H |].
  apply (main_total [VNull; VObject []] (<[STAGE := []]> ∅) (- maxTimeValue) H).
Defined.

(** C8. The result does not depend on the request, and depends on the
    environment through [STAGE] alone: two invocations at the same clock
    reading, in environments that agree on [STAGE], settle alike. *)
Theorem main_ignores_request
    (r1 r2 : list value) (env1 env2 : gmap jsstring jsstring) (clock : Z) :
  env1 !! STAGE = env2 !! STAGE ->
  main r1 env1 clock = main r2 env2 clock.
Proof.
  intros Henv. unfold main, main_body, payload, env_get.
  rewrite Henv. reflexivity.
Qed.

Lemma main_ignores_request_witness :
  (<[js "REGION" := js "us-east-1"]> (<[STAGE := js "prod"]> ∅)
     : gmap jsstring jsstring) !! STAGE
  = (<[STAGE := js "prod"]> ∅ : gmap jsstring jsstring) !! STAGE /\
  main [VObject [(js "path", VString (js "/test"))]; VObject []]
    (<[js "REGION" := js "us-east-1"]> (<[STAGE := js "prod"]> ∅)) 0
  = main [] (<[STAGE := js "prod"]> ∅) 0.
Proof.
  assert (H : (<[js "REGION" := js "us-east-1"]> (<[STAGE := js "prod"]> ∅)
                 : gmap jsstring jsstring) !! STAGE
              = (<[STAGE := js "prod"]> ∅ : gmap jsstring jsstring) !! STAGE)
    by (vm_compute; reflexivity).
  split; [exact H |].
  apply (main_ignores_request _ _ _ _ 0 H).
Defined.

Lemma decoded_timestamp_main (env : gmap jsstring jsstring) (clock : Z) (r : ResponseEnvelope) :
  is_time_value clock ->
  body r = SerializeJSONObject (payload (iso_string clock) env) ->
  decoded_timestamp r = Some clock.
Proof.
  intros Ht Hb. unfold decoded_timestamp.
  rewrite Hb, JSON_parse_payload.
  change (Get (VObject (payload (iso_string clock) env)) (js "timestamp"))
    with (VString (iso_string clock)).
  now apply Date_parse_iso_string.
Qed.

(** C9. When the clock reading of a second invocation is not below that of
    a first one, the instant decoded from the second timestamp is not
    before the instant decoded from the first. *)
Theorem main_timestamps_monotone
    (args1 args2 : list value) (env1 env2 : gmap jsstring jsstring) (clock1 clock2 : Z) :
  is_time_value clock1 -> is_time_value clock2 -> clock1 <= clock2 ->
  exists r1 r2 t1 t2,
    main args1 env1 clock1 = Fulfilled r1 /\
    main args2 env2 clock2 = Fulfilled r2 /\
    decoded_timestamp r1 = Some t1 /\
    decoded_timestamp r2 = Some t2 /\
    t1 <= t2.
Proof.
  intros H1 H2 Hle.
  eexists _, _, clock1, clock2.
  split; [apply main_fulfilled, H1 |].
  split; [apply main_fulfilled, H2 |].
  split; [apply (decoded_timestamp_main env1 clock1 _ H1); reflexivity |].
  split; [apply (decoded_timestamp_main env2 clock2 _ H2); reflexivity |].
  exact Hle.
Qed.

Lemma main_timestamps_monotone_witness :
  is_time_value 253402300799999 /\ is_time_value 253402300800000 /\
  253402300799999 <= 253402300800000 /\
  exists r1 r2 t1 t2,
    main [] ∅ 253402300799999 = Fulfilled r1 /\
    main [] ∅ 253402300800000 = Fulfilled r2 /\
    decoded_timestamp r1 = Some t1 /\
    decoded_timestamp r2 = Some t2 /\
    t1 <= t2.
Proof.
  assert (H1 : is_time_value 253402300799999)
    by (unfold is_time_value, maxTimeValue; lia).
  assert (H2 : is_time_value 253402300800000)
    by (unfold is_time_value, maxTimeValue; lia).
  assert (Hle : 253402300799999 <= 253402300800000) by lia.
  split; [exact H1 |]. split; [exact H2 |]. split; [exact Hle |].
  apply (main_timestamps_monotone [] [] ∅ ∅ _ _ H1 H2 Hle).
Defined.

(** C10. For every value of [STAGE], whatever code units it holds, the
    body is well-formed JSON and decodes to the object that was serialized:
    the message, the timestamp and the stage come back as they were. *)
Theorem main_body_round_trip (args : list value) (env : gmap jsstring jsstring) (clock : Z) :
  is_time_value clock ->
  exists r v,
    main args env clock = Fulfilled r /\
    body r = SerializeJSONObject (payload (iso_string clock) env) /\
    JSON_parse (body r) = Some v /\
    v = VObject (payload (iso_string clock) env) /\
    Get v (js "message")
    = VString (js "Hello World from serverless starter template! Jayvee") /\
    Get v (js "timestamp") = VString (iso_string clock) /\
    Get v (js "stage") = logical_or (env_get env STAGE) (VString (js "dev")).
Proof.
  intros Ht.
  eexists _, _. split; [apply main_fulfilled, Ht |].
  cbn [body]. split; [reflexivity |].
  split; [apply JSON_parse_payload |].
  repeat split; reflexivity.
Qed.

Lemma main_body_round_trip_witness :
  is_time_value 0 /\
  exists r v,
    main [] (<[STAGE := awkward_stage]> ∅) 0 = Fulfilled r /\
    body r = SerializeJSONObject (payload (iso_string 0) (<[STAGE := awkward_stage]> ∅)) /\
    JSON_parse (body r) = Some v /\
    v = VObject (payload (iso_string 0) (<[STAGE := awkward_stage]> ∅)) /\
    Get v (js "message")
    = VString (js "Hello World from serverless starter template! Jayvee") /\
    Get v (js "timestamp") = VString (iso_string 0) /\
    Get v (js "stage")
    = logical_or (env_get (<[STAGE := awkward_stage]> ∅) STAGE) (VString (js "dev")).
Proof.
  assert (H : is_time_value 0) by (unfold is_time_value, maxTimeValue; lia).
  split; [exact H |].
  apply (main_body_round_trip [] (<[STAGE := awkward_stage]> ∅) 0 H).
Defined.

(** ** Timestamps as strings

    Within the years 0000 to 9999 every timestamp has the same shape, and
    the strings are ordered as the instants are. *)

Lemma cu_code_digit (d : Z) : 0 <= d <= 9 -> cu_code (digit d) = 48 + d.
Proof.
  intros H.
  assert (E : d = 0 \/ d = 1 \/ d = 2 \/ d = 3 \/ d = 4 \/ d = 5 \/ d = 6 \/
              d = 7 \/ d = 8 \/ d = 9) by lia.
  repeat (destruct E as [E | E]; [subst d; reflexivity |]).
  subst d; reflexivity.
Qed.

Lemma jsstring_leb_app_same (p r1 r2 : jsstring) :
  jsstring_leb (p ++ r1) (p ++ r2) = jsstring_leb r1 r2.
Proof.
  induction p as [| c p IH]; [reflexivity |].
  cbn [app jsstring_leb]. rewrite Z.ltb_irrefl, Z.eqb_refl. exact IH.
Qed.

Lemma jsstring_leb_digits (w : nat) :
  forall (n1 n2 : Z) (r1 r2 : jsstring),
    0 <= n1 < 10 ^ Z.of_nat w -> 0 <= n2 < 10 ^ Z.of_nat w ->
    n1 <= n2 ->
    (n1 = n2 -> jsstring_leb r1 r2 = true) ->
    jsstring_leb (digits w n1 ++ r1) (digits w n2 ++ r2) = true.
Proof.
  induction w as [| w IH]; intros n1 n2 r1 r2 H1 H2 Hle Hr.
  - simpl in *. apply Hr. lia.
  - rewrite Nat2Z.inj_succ, Z.pow_succ_r in H1, H2 by lia.
    cbn [digits]. rewrite <- !app_assoc. cbn [app].
    apply IH; try (Z.div_mod_to_equations; lia).
    intros Hq. cbn [jsstring_leb].
    rewrite !cu_code_digit by (Z.div_mod_to_equations; lia).
    destruct (Z.ltb_spec (48 + n1 mod 10) (48 + n2 mod 10)); [reflexivity |].
    destruct (Z.eqb_spec (48 + n1 mod 10) (48 + n2 mod 10)).
    + apply Hr. Z.div_mod_to_equations. lia.
    + exfalso. Z.div_mod_to_equations. lia.
Qed.

Lemma YearFromDay_mono (d1 d2 : Z) : d1 <= d2 -> YearFromDay d1 <= YearFromDay d2.
Proof.
  intros Hd.
  destruct (Z.le_gt_cases (YearFromDay d1) (YearFromDay d2)) as [H | H]; [exact H |].
  pose proof (YearFromDay_spec d1) as [H1 _].
  pose proof (YearFromDay_spec d2) as [_ H2].
  pose proof (DayFromYear_mono (YearFromDay d2 + 1) (YearFromDay d1) ltac:(lia)).
  lia.
Qed.

Lemma date_fields_mono (t1 t2 : Z) :
  InLeapYear t1 = InLeapYear t2 ->
  DayWithinYear t1 <= DayWithinYear t2 ->
  MonthFromTime t1 <= MonthFromTime t2 /\
  (MonthFromTime t1 = MonthFromTime t2 ->
   DateFromTime t1 <= DateFromTime t2 /\
   (DateFromTime t1 = DateFromTime t2 -> DayWithinYear t1 = DayWithinYear t2)).
Proof.
  unfold DateFromTime, MonthFromTime.
  generalize (DayWithinYear t1) (DayWithinYear t2) (InLeapYear t1) (InLeapYear t2).
  intros a b l l' <- Hab.
  split_ltb; cbn; lia.
Qed.

Lemma time_fields_mono (t1 t2 : Z) :
  Day t1 = Day t2 -> t1 <= t2 ->
  HourFromTime t1 <= HourFromTime t2 /\
  (HourFromTime t1 = HourFromTime t2 ->
   MinFromTime t1 <= MinFromTime t2 /\
   (MinFromTime t1 = MinFromTime t2 ->
    SecFromTime t1 <= SecFromTime t2 /\
    (SecFromTime t1 = SecFromTime t2 -> msFromTime t1 <= msFromTime t2))).
Proof.
  unfold Day, HourFromTime, MinFromTime, SecFromTime, msFromTime,
    msPerDay, msPerHour, msPerMinute, msPerSecond.
  intros Hd Hle. Z.div_mod_to_equations. lia.
Qed.

(** From year 0000 to year 9999 a later instant never has the smaller
    timestamp. *)
Lemma iso_string_order (t1 t2 : Z) :
  t1 <= t2 ->
  0 <= YearFromTime t1 <= 9999 -> 0 <= YearFromTime t2 <= 9999 ->
  jsstring_leb (iso_string t1) (iso_string t2) = true.
Proof.
  intros Hle Hy1 Hy2.
  assert (Hd : Day t1 <= Day t2)
    by (unfold Day, msPerDay; Z.div_mod_to_equations; lia).
  pose proof (YearFromDay_mono _ _ Hd) as HY.
  fold (YearFromTime t1) (YearFromTime t2) in HY.
  pose proof (MonthFromTime_range t1) as Hm1.
  pose proof (MonthFromTime_range t2) as Hm2.
  pose proof (DateFromTime_range t1) as Hd1.
  pose proof (DateFromTime_range t2) as Hd2.
  pose proof (DaysInMonth_range (YearFromTime t1) (MonthFromTime t1) Hm1) as Hdm1.
  pose proof (DaysInMonth_range (YearFromTime t2) (MonthFromTime t2) Hm2) as Hdm2.
  assert (Hf : forall t,
             0 <= HourFromTime t < 100 /\ 0 <= MinFromTime t < 100 /\
             0 <= SecFromTime t < 100 /\ 0 <= msFromTime t < 1000).
  { intros t. unfold HourFromTime, MinFromTime, SecFromTime, msFromTime, msPerSecond.
    Z.div_mod_to_equations. lia. }
  destruct (Hf t1) as (Hh1 & Hi1 & Hs1 & Hms1).
  destruct (Hf t2) as (Hh2 & Hi2 & Hs2 & Hms2). clear Hf.
  unfold iso_string, year_string.
  rewrite (proj2 (Z.leb_le 0 (YearFromTime t1))), (proj2 (Z.leb_le (YearFromTime t1) 9999)),
    (proj2 (Z.leb_le 0 (YearFromTime t2))), (proj2 (Z.leb_le (YearFromTime t2) 9999)) by lia.
  cbn [andb].
  apply jsstring_leb_digits; [simpl; lia | simpl; lia | exact HY |]. intros EY.
  assert (Hleap : InLeapYear t1 = InLeapYear t2) by (unfold InLeapYear; now rewrite EY).
  assert (Hdwy : DayWithinYear t1 <= DayWithinYear t2)
    by (unfold DayWithinYear; rewrite EY; lia).
  destruct (date_fields_mono t1 t2 Hleap Hdwy) as [HM HM'].
  rewrite jsstring_leb_app_same.
  apply jsstring_leb_digits; [simpl; lia | simpl; lia | lia |]. intros EM.
  destruct (HM' ltac:(lia)) as [HD HD'].
  rewrite jsstring_leb_app_same.
  apply jsstring_leb_digits; [simpl; lia | simpl; lia | exact HD |]. intros ED.
  assert (Hday : Day t1 = Day t2).
  { specialize (HD' ED). unfold DayWithinYear in HD'. rewrite EY in HD'. lia. }
  destruct (time_fields_mono t1 t2 Hday Hle) as [Hh Hh'].
  rewrite jsstring_leb_app_same.
  apply jsstring_leb_digits; [simpl; lia | simpl; lia | exact Hh |]. intros Eh.
  destruct (Hh' Eh) as [Hi Hi'].
  rewrite jsstring_leb_app_same.
  apply jsstring_leb_digits; [simpl; lia | simpl; lia | exact Hi |]. intros Ei.
  destruct (Hi' Ei) as [Hs Hs'].
  rewrite jsstring_leb_app_same.
  apply jsstring_leb_digits; [simpl; lia | simpl; lia | exact Hs |]. intros Es.
  rewrite jsstring_leb_app_same.
  apply jsstring_leb_digits; [simpl; lia | simpl; lia | exact (Hs' Es) |]. intros _.
  reflexivity.
Qed.

(** Past year 9999 the sign of the expanded year breaks that order: the
    first instant of year 10000 is written with a smaller string than the
    instant before it. *)
Example iso_string_order_breaks :
  253402300799999 <= 253402300800000 /\
  jsstring_leb (iso_string 253402300799999) (iso_string 253402300800000) = false.
Proof. split; [lia | vm_compute; reflexivity]. Qed.

(** * Further properties of the handler *)

(** ** How the promise settles *)

(** X1. The promise is fulfilled exactly when the clock reading is a time
    value; on any other reading [new Date()] is invalid, [toISOString]
    raises, and the promise is rejected with a [RangeError]. *)
Theorem main_settles_by_clock (args : list value) (env : gmap jsstring jsstring) (clock : Z) :
  ((exists r, main args env clock = Fulfilled r) <-> is_time_value clock) /\
  (main args env clock = Rejected RangeError <-> ~ is_time_value clock).
Proof.
  unfold main, main_body, Date_new, TimeClip, is_time_value.
  destruct (Z.ltb_spec maxTimeValue (Z.abs clock)) as [H | H]; cbn.
  - split; split.
    + intros [r Hr]. discriminate Hr.
    + intros Hc. exfalso. lia.
    + intros _. lia.
    + reflexivity.
  - split; split.
    + intros _. lia.
    + intros _. eexists. reflexivity.
    + intros Hr. discriminate Hr.
    + intros Hc. exfalso. apply Hc. lia.
Qed.

(** ** The timestamp *)

(** X2. The timestamp of the body denotes the clock reading itself, to the
    millisecond. *)
Theorem main_timestamp_exact (args : list value) (env : gmap jsstring jsstring) (clock : Z) :
  is_time_value clock ->
  exists r, main args env clock = Fulfilled r /\ decoded_timestamp r = Some clock.
Proof.
  intros Ht. eexists. split; [apply main_fulfilled, Ht |].
  apply (decoded_timestamp_main env clock _ Ht). reflexivity.
Qed.

Lemma main_timestamp_exact_witness :
  is_time_value (-1) /\
  exists r, main [] ∅ (-1) = Fulfilled r /\ decoded_timestamp r = Some (-1).
Proof.
  split; [unfold is_time_value, maxTimeValue; lia |].
  apply (main_timestamp_exact [] ∅ (-1)).
  unfold is_time_value, maxTimeValue. lia.
Defined.

Lemma four_digit_era_year (t : Z) :
  four_digit_era t = true <-> 0 <= YearFromTime t <= 9999.
Proof.
  unfold four_digit_era. rewrite andb_true_iff, !Z.leb_le.
  pose proof (YearFromTime_spec t) as [Hlo Hhi].
  change (-62167219200000) with (TimeFromYear 0).
  change 253402300799999 with (TimeFromYear 10000 - 1).
  split.
  - intros [H0 H1]. split.
    + now apply YearFromTime_largest.
    + destruct (Z.le_gt_cases (YearFromTime t) 9999) as [H | H]; [exact H |].
      pose proof (DayFromYear_mono 10000 (YearFromTime t) ltac:(lia)).
      unfold TimeFromYear, msPerDay in *. lia.
  - intros [H0 H1]. split.
    + pose proof (DayFromYear_mono 0 (YearFromTime t) H0).
      unfold TimeFromYear, msPerDay in *. lia.
    + pose proof (DayFromYear_mono (YearFromTime t + 1) 10000 ltac:(lia)).
      unfold TimeFromYear, msPerDay in *. lia.
Qed.

Lemma four_digit_era_time_value (t : Z) : four_digit_era t = true -> is_time_value t.
Proof.
  unfold four_digit_era, is_time_value, maxTimeValue.
  rewrite andb_true_iff, !Z.leb_le. lia.
Qed.

Lemma Get_timestamp_payload (ts : jsstring) (env : gmap jsstring jsstring) :
  Get (VObject (payload ts env)) (js "timestamp") = VString ts.
Proof. reflexivity. Qed.

(** X3. Between year 0000 and year 9999 the timestamps of two invocations
    compare, as strings, the way their clock readings do. *)
Theorem main_timestamp_strings_ordered
    (args1 args2 : list value) (env1 env2 : gmap jsstring jsstring) (clock1 clock2 : Z) :
  four_digit_era clock1 = true -> four_digit_era clock2 = true ->
  clock1 <= clock2 ->
  exists r1 r2 v1 v2 ts1 ts2,
    main args1 env1 clock1 = Fulfilled r1 /\
    main args2 env2 clock2 = Fulfilled r2 /\
    JSON_parse (body r1) = Some v1 /\
    JSON_parse (body r2) = Some v2 /\
    Get v1 (js "timestamp") = VString ts1 /\
    Get v2 (js "timestamp") = VString ts2 /\
    jsstring_leb ts1 ts2 = true.
Proof.
  intros E1 E2 Hle.
  eexists _, _, _, _, _, _.
  split; [apply main_fulfilled, four_digit_era_time_value, E1 |].
  split; [apply main_fulfilled, four_digit_era_time_value, E2 |].
  cbn [body].
  split; [apply JSON_parse_payload |].
  split; [apply JSON_parse_payload |].
  split; [apply Get_timestamp_payload |].
  split; [apply Get_timestamp_payload |].
  apply iso_string_order; [exact Hle | now apply four_digit_era_year ..].
Qed.

Lemma main_timestamp_strings_ordered_witness :
  four_digit_era 1753543616168 = true /\ four_digit_era 1753543616169 = true /\
  1753543616168 <= 1753543616169 /\
  exists r1 r2 v1 v2 ts1 ts2,
    main [] ∅ 1753543616168 = Fulfilled r1 /\
    main [] ∅ 1753543616169 = Fulfilled r2 /\
    JSON_parse (body r1) = Some v1 /\
    JSON_parse (body r2) = Some v2 /\
    Get v1 (js "timestamp") = VString ts1 /\
    Get v2 (js "timestamp") = VString ts2 /\
    jsstring_leb ts1 ts2 = true.
Proof.
  split; [reflexivity |]. split; [reflexivity |]. split; [lia |].
  apply (main_timestamp_strings_ordered [] [] ∅ ∅ 1753543616168 1753543616169);
    [reflexivity | reflexivity | lia].
Defined.

Lemma digits_length (w : nat) (n : Z) : length (digits w n) = w.
Proof.
  revert n. induction w as [| w IH]; intros n; [reflexivity |].
  cbn [digits]. rewrite length_app, IH. simpl. lia.
Qed.

Lemma iso_string_length (t : Z) :
  length (iso_string t) = if four_digit_era t then 24%nat else 27%nat.
Proof.
  unfold iso_string, year_string.
  pose proof (four_digit_era_year t) as Hera.
  destruct (four_digit_era t).
  - destruct (proj1 Hera eq_refl) as [H0 H1].
    rewrite (proj2 (Z.leb_le 0 _) H0), (proj2 (Z.leb_le _ 9999) H1). cbn [andb].
    rewrite !length_app, !digits_length. reflexivity.
  - destruct ((0 <=? YearFromTime t) && (YearFromTime t <=? 9999)) eqn:E.
    + rewrite andb_true_iff, !Z.leb_le in E.
      pose proof (proj2 Hera E) as F. discriminate F.
    + destruct (YearFromTime t <? 0);
        rewrite !length_app, !digits_length; reflexivity.
Qed.

(** X4. The timestamp has a fixed width: 24 code units for the years 0000
    to 9999, and 27 with the signed six-digit year outside them. *)
Theorem main_timestamp_length (args : list value) (env : gmap jsstring jsstring) (clock : Z) :
  is_time_value clock ->
  exists r v ts,
    main args env clock = Fulfilled r /\
    JSON_parse (body r) = Some v /\
    Get v (js "timestamp") = VString ts /\
    length ts = if four_digit_era clock then 24%nat else 27%nat.
Proof.
  intros Ht. eexists _, _, _.
  split; [apply main_fulfilled, Ht |]. cbn [body].
  split; [apply JSON_parse_payload |].
  split; [apply Get_timestamp_payload |].
  apply iso_string_length.
Qed.

Lemma main_timestamp_length_witness :
  is_time_value 253402300800000 /\
  exists r v ts,
    main [] ∅ 253402300800000 = Fulfilled r /\
    JSON_parse (body r) = Some v /\
    Get v (js "timestamp") = VString ts /\
    length ts = if four_digit_era 253402300800000 then 24%nat else 27%nat.
Proof.
  split; [unfold is_time_value, maxTimeValue; lia |].
  apply (main_timestamp_length [] ∅ 253402300800000).
  unfold is_time_value, maxTimeValue. lia.
Defined.

(** ** The text of the body *)

Lemma quote_unit_plain (c : code_unit) :
  needs_no_escape c = true -> quote_unit c = [c] /\ is_leading_surrogate c = false.
Proof.
  destruct c as [hi lo]. intros H.
  destruct hi;
    [ destruct lo; first [discriminate H | split; reflexivity]
    | first [discriminate H | split; reflexivity] .. ].
Qed.

Lemma quote_units_plain (s : jsstring) :
  forallb needs_no_escape s = true -> quote_units s = s.
Proof.
  induction s as [| c s IH]; intros H; [reflexivity |].
  cbn [forallb] in H. apply andb_true_iff in H. destruct H as [Hc Hs].
  destruct (quote_unit_plain c Hc) as [Hq Hl].
  cbn [quote_units]. rewrite Hl, Hq, (IH Hs). reflexivity.
Qed.

Lemma QuoteJSONString_plain (s : jsstring) :
  forallb needs_no_escape s = true -> QuoteJSONString s = quoted s.
Proof. intros H. unfold QuoteJSONString, quoted. now rewrite quote_units_plain. Qed.

Lemma digit_plain (d : Z) : needs_no_escape (digit d) = true.
Proof.
  unfold digit. generalize (Z.to_nat d). intros n.
  do 10 (destruct n as [| n]; [reflexivity |]).
  destruct n; reflexivity.
Qed.

Lemma digits_plain (w : nat) (n : Z) : forallb needs_no_escape (digits w n) = true.
Proof.
  revert n. induction w as [| w IH]; intros n; [reflexivity |].
  cbn [digits]. rewrite forallb_app, IH. cbn [forallb].
  now rewrite digit_plain.
Qed.

(** A timestamp holds nothing that JSON escapes. *)
Lemma iso_string_plain (t : Z) : forallb needs_no_escape (iso_string t) = true.
Proof.
  unfold iso_string, year_string.
  destruct ((0 <=? YearFromTime t) && (YearFromTime t <=? 9999));
    [| destruct (YearFromTime t <? 0)];
    rewrite ?forallb_app, ?digits_plain; reflexivity.
Qed.

Lemma body_text (ts s : jsstring) (env : gmap jsstring jsstring) :
  logical_or (env_get env STAGE) (VString (js "dev")) = VString s ->
  forallb needs_no_escape ts = true ->
  forallb needs_no_escape s = true ->
  SerializeJSONObject (payload ts env) =
  js "{" ++ quoted (js "message") ++ js ":" ++
  quoted (js "Hello World from serverless starter template! Jayvee") ++
  js "," ++ quoted (js "timestamp") ++ js ":" ++ quoted ts ++
  js "," ++ quoted (js "stage") ++ js ":" ++ quoted s ++ js "}".
Proof.
  intros Hs Hts Hp.
  rewrite (payload_string_props ts env s Hs).
  unfold SerializeJSONObject. rewrite member_strings_string_props.
  cbn [map join fst snd].
  rewrite (QuoteJSONString_plain ts Hts), (QuoteJSONString_plain s Hp).
  rewrite !QuoteJSONString_plain by reflexivity.
  rewrite <- !app_assoc. reflexivity.
Qed.

(** X5. With [STAGE] absent or empty the body is this text, character for
    character; only the timestamp varies. *)
Theorem main_body_text_default (args : list value) (env : gmap jsstring jsstring) (clock : Z) :
  is_time_value clock ->
  env !! STAGE = None \/ env !! STAGE = Some [] ->
  exists r,
    main args env clock = Fulfilled r /\
    body r =
    js "{" ++ quoted (js "message") ++ js ":" ++
    quoted (js "Hello World from serverless starter template! Jayvee") ++
    js "," ++ quoted (js "timestamp") ++ js ":" ++ quoted (iso_string clock) ++
    js "," ++ quoted (js "stage") ++ js ":" ++ quoted (js "dev") ++ js "}".
Proof.
  intros Ht Henv. eexists. split; [apply main_fulfilled, Ht |]. cbn [body].
  destruct (stage_cases env) as (s & Hs & _ & Hdev & _).
  rewrite (Hdev Henv) in Hs.
  apply (body_text _ _ env Hs); [apply iso_string_plain | reflexivity].
Qed.

Lemma main_body_text_default_witness :
  is_time_value 0 /\
  ((∅ : gmap jsstring jsstring) !! STAGE = None \/
   (∅ : gmap jsstring jsstring) !! STAGE = Some []) /\
  exists r,
    main [] ∅ 0 = Fulfilled r /\
    body r =
    js "{" ++ quoted (js "message") ++ js ":" ++
    quoted (js "Hello World from serverless starter template! Jayvee") ++
    js "," ++ quoted (js "timestamp") ++ js ":" ++ quoted (iso_string 0) ++
    js "," ++ quoted (js "stage") ++ js ":" ++ quoted (js "dev") ++ js "}".
Proof.
  split; [unfold is_time_value, maxTimeValue; lia |].
  split; [left; reflexivity |].
  apply (main_body_text_default [] ∅ 0).
  - unfold is_time_value, maxTimeValue. lia.
  - left. reflexivity.
Defined.

(** X6. With [STAGE] set to a non-empty string that holds no quote, no
    backslash, no control character and no surrogate, that string stands in
    the body as it is, between quotes. *)
Theorem main_body_text_plain
    (args : list value) (env : gmap jsstring jsstring) (clock : Z) (S : jsstring) :
  is_time_value clock ->
  env !! STAGE = Some S -> S <> [] ->
  forallb needs_no_escape S = true ->
  exists r,
    main args env clock = Fulfilled r /\
    body r =
    js "{" ++ quoted (js "message") ++ js ":" ++
    quoted (js "Hello World from serverless starter template! Jayvee") ++
    js "," ++ quoted (js "timestamp") ++ js ":" ++ quoted (iso_string clock) ++
    js "," ++ quoted (js "stage") ++ js ":" ++ quoted S ++ js "}".
Proof.
  intros Ht Henv Hne Hp. eexists. split; [apply main_fulfilled, Ht |]. cbn [body].
  destruct (stage_cases env) as (s & Hs & _ & _ & Hset).
  rewrite (Hset S Henv Hne) in Hs.
  apply (body_text _ _ env Hs); [apply iso_string_plain | exact Hp].
Qed.

Lemma main_body_text_plain_witness :
  is_time_value 1753543616168 /\
  (<[STAGE := js "jayvee-dev"]> ∅ : gmap jsstring jsstring) !! STAGE
  = Some (js "jayvee-dev") /\
  js "jayvee-dev" <> [] /\
  forallb needs_no_escape (js "jayvee-dev") = true /\
  exists r,
    main [] (<[STAGE := js "jayvee-dev"]> ∅) 1753543616168 = Fulfilled r /\
    body r =
    js "{" ++ quoted (js "message") ++ js ":" ++
    quoted (js "Hello World from serverless starter template! Jayvee") ++
    js "," ++ quoted (js "timestamp") ++ js ":" ++ quoted (iso_string 1753543616168) ++
    js "," ++ quoted (js "stage") ++ js ":" ++ quoted (js "jayvee-dev") ++ js "}".
Proof.
  split; [unfold is_time_value, maxTimeValue; lia |].
  split; [vm_compute; reflexivity |].
  split; [discriminate |].
  split; [reflexivity |].
  apply (main_body_text_plain [] (<[STAGE := js "jayvee-dev"]> ∅) 1753543616168
           (js "jayvee-dev")).
  - unfold is_time_value, maxTimeValue. lia.
  - vm_compute. reflexivity.
  - discriminate.
  - reflexivity.
Defined.

(** ** What the body never holds *)

Lemma hex_digit_clean (n : N) : clean_unit (hex_digit n) = true.
Proof.
  unfold hex_digit. generalize (N.to_nat n). intros k.
  do 16 (destruct k as [| k]; [reflexivity |]).
  destruct k; reflexivity.
Qed.

Lemma UnicodeEscape_clean (c : code_unit) : forallb clean_unit (UnicodeEscape c) = true.
Proof.
  unfold UnicodeEscape, hex2. cbn [app forallb].
  rewrite !hex_digit_clean. reflexivity.
Qed.

Lemma quote_unit_clean (c : code_unit) : forallb clean_unit (quote_unit c) = true.
Proof.
  destruct c as [hi lo].
  destruct hi;
    [ destruct lo; reflexivity
    | first [ reflexivity
            | change (quote_unit ?c) with (UnicodeEscape c);
              apply UnicodeEscape_clean ] .. ].
Qed.

Lemma clean_unit_no_control (c : code_unit) : clean_unit c = true -> is_control c = false.
Proof.
  unfold clean_unit. intros H. apply andb_true_iff in H.
  destruct H as [H _]. now apply negb_true_iff in H.
Qed.

Lemma surrogate_no_control (c : code_unit) :
  is_leading_surrogate c || is_trailing_surrogate c = true -> is_control c = false.
Proof.
  destruct c as [hi lo]. intros H.
  destruct hi; first [discriminate H | reflexivity].
Qed.

Lemma forallb_clean_no_control (s : jsstring) :
  forallb clean_unit s = true -> forallb (fun c => negb (is_control c)) s = true.
Proof.
  induction s as [| c s IH]; [reflexivity |].
  cbn [forallb]. rewrite !andb_true_iff. intros [Hc Hs].
  split; [| exact (IH Hs)]. now rewrite (clean_unit_no_control c Hc).
Qed.

(** However a string is made, its quoted form has no control character. *)
Lemma quote_units_no_control (s : jsstring) :
  forallb (fun c => negb (is_control c)) (quote_units s) = true.
Proof.
  remember (length s) as n eqn:Hn.
  assert (Hlen : (length s <= n)%nat) by lia. clear Hn.
  revert s Hlen. induction n as [| n IH]; intros s Hlen.
  - destruct s; [reflexivity | simpl in Hlen; lia].
  - destruct s as [| c s]; [reflexivity |]. simpl in Hlen.
    cbn [quote_units].
    destruct (is_leading_surrogate c) eqn:Hlead.
    + destruct s as [| c' s].
      * apply forallb_clean_no_control, UnicodeEscape_clean.
      * destruct (is_trailing_surrogate c') eqn:Htrail.
        -- cbn [forallb].
           rewrite (surrogate_no_control c) by (rewrite Hlead; reflexivity).
           rewrite (surrogate_no_control c') by (rewrite Htrail; apply orb_true_r).
           simpl in Hlen. apply IH. lia.
        -- rewrite forallb_app, IH by lia.
           now rewrite (forallb_clean_no_control _ (UnicodeEscape_clean c)).
    + rewrite forallb_app, IH by lia.
      now rewrite (forallb_clean_no_control _ (quote_unit_clean c)).
Qed.

Lemma well_formed_utf16_clean_app (a b : jsstring) :
  forallb clean_unit a = true ->
  well_formed_utf16 (a ++ b) = well_formed_utf16 b.
Proof.
  induction a as [| c a IH]; [reflexivity |].
  cbn [forallb]. rewrite andb_true_iff. intros [Hc Ha].
  unfold clean_unit in Hc. apply andb_true_iff in Hc. destruct Hc as [_ Hc].
  apply negb_true_iff, orb_false_iff in Hc. destruct Hc as [Hl Ht].
  cbn [app well_formed_utf16]. rewrite Hl, Ht. cbn [negb andb]. exact (IH Ha).
Qed.

(** The quoted form pairs every surrogate it keeps, even when the string
    itself does not. *)
Lemma well_formed_utf16_quote_units (s b : jsstring) :
  well_formed_utf16 (quote_units s ++ b) = well_formed_utf16 b.
Proof.
  remember (length s) as n eqn:Hn.
  assert (Hlen : (length s <= n)%nat) by lia. clear Hn.
  revert s Hlen. induction n as [| n IH]; intros s Hlen.
  - destruct s; [reflexivity | simpl in Hlen; lia].
  - destruct s as [| c s]; [reflexivity |]. simpl in Hlen.
    cbn [quote_units].
    destruct (is_leading_surrogate c) eqn:Hlead.
    + destruct s as [| c' s].
      * apply well_formed_utf16_clean_app, UnicodeEscape_clean.
      * destruct (is_trailing_surrogate c') eqn:Htrail.
        -- cbn [app well_formed_utf16]. rewrite Hlead, Htrail. cbn [andb].
           simpl in Hlen. apply IH. lia.
        -- rewrite <- app_assoc.
           rewrite well_formed_utf16_clean_app by apply UnicodeEscape_clean.
           apply IH. lia.
    + rewrite <- app_assoc.
      rewrite well_formed_utf16_clean_app by apply quote_unit_clean.
      apply IH. lia.
Qed.

Lemma well_formed_utf16_QuoteJSONString (s b : jsstring) :
  well_formed_utf16 (QuoteJSONString s ++ b) = well_formed_utf16 b.
Proof.
  rewrite QuoteJSONString_app.
  change (DQUOTE :: quote_units s ++ DQUOTE :: b)
    with ([DQUOTE] ++ quote_units s ++ [DQUOTE] ++ b).
  rewrite well_formed_utf16_clean_app by reflexivity.
  rewrite well_formed_utf16_quote_units.
  now rewrite well_formed_utf16_clean_app by reflexivity.
Qed.

Lemma no_control_QuoteJSONString (s : jsstring) :
  forallb (fun c => negb (is_control c)) (QuoteJSONString s) = true.
Proof.
  unfold QuoteJSONString. cbn [forallb].
  rewrite forallb_app, quote_units_no_control. reflexivity.
Qed.

(** The serialization of three string-valued properties, spelled out. *)
Lemma SerializeJSONObject_three (k1 v1 k2 v2 k3 v3 : jsstring) :
  SerializeJSONObject (string_props [(k1, v1); (k2, v2); (k3, v3)]) =
  js "{" ++ QuoteJSONString k1 ++ js ":" ++ QuoteJSONString v1 ++
  js "," ++ QuoteJSONString k2 ++ js ":" ++ QuoteJSONString v2 ++
  js "," ++ QuoteJSONString k3 ++ js ":" ++ QuoteJSONString v3 ++ js "}".
Proof.
  unfold SerializeJSONObject. rewrite member_strings_string_props.
  cbn [map join fst snd]. rewrite <- !app_assoc. reflexivity.
Qed.

(** X7. Whatever code units [STAGE] holds, the body has no control
    character (none below U+0020): each one is written as an escape. *)
Theorem main_body_no_control (args : list value) (env : gmap jsstring jsstring) (clock : Z) :
  is_time_value clock ->
  exists r,
    main args env clock = Fulfilled r /\
    forallb (fun c => negb (is_control c)) (body r) = true.
Proof.
  intros Ht. eexists. split; [apply main_fulfilled, Ht |]. cbn [body].
  destruct (stage_cases env) as (s & Hs & _).
  rewrite (payload_string_props _ env s Hs), SerializeJSONObject_three.
  rewrite !forallb_app, !no_control_QuoteJSONString. reflexivity.
Qed.

Lemma main_body_no_control_witness :
  is_time_value 0 /\
  exists r,
    main [] (<[STAGE := awkward_stage]> ∅) 0 = Fulfilled r /\
    forallb (fun c => negb (is_control c)) (body r) = true.
Proof.
  split; [unfold is_time_value, maxTimeValue; lia |].
  apply (main_body_no_control [] (<[STAGE := awkward_stage]> ∅) 0).
  unfold is_time_value, maxTimeValue. lia.
Defined.

(** X8. Whatever code units [STAGE] holds, lone surrogates included, the
    body is well-formed UTF-16: a surrogate stands in it only as one half of
    a pair. *)
Theorem main_body_well_formed_utf16
    (args : list value) (env : gmap jsstring jsstring) (clock : Z) :
  is_time_value clock ->
  exists r,
    main args env clock = Fulfilled r /\ well_formed_utf16 (body r) = true.
Proof.
  intros Ht. eexists. split; [apply main_fulfilled, Ht |]. cbn [body].
  destruct (stage_cases env) as (s & Hs & _).
  rewrite (payload_string_props _ env s Hs), SerializeJSONObject_three.
  repeat first
    [ rewrite well_formed_utf16_QuoteJSONString
    | rewrite (well_formed_utf16_clean_app (js "{")) by reflexivity
    | rewrite (well_formed_utf16_clean_app (js ":")) by reflexivity
    | rewrite (well_formed_utf16_clean_app (js ",")) by reflexivity ].
  reflexivity.
Qed.

Lemma main_body_well_formed_utf16_witness :
  is_time_value 0 /\
  exists r,
    main [] (<[STAGE := [CU xdc x00; CU xd8 x3d]]> ∅) 0 = Fulfilled r /\
    well_formed_utf16 (body r) = true.
Proof.
  split; [unfold is_time_value, maxTimeValue; lia |].
  apply (main_body_well_formed_utf16 [] (<[STAGE := [CU xdc x00; CU xd8 x3d]]> ∅) 0).
  unfold is_time_value, maxTimeValue. lia.
Defined.

(** ** Round trip, size, and what an envelope determines *)



Lemma quote_unit_length (c : code_unit) :
  (1 <= length (quote_unit c) <= 6)%nat.
Proof.
  unfold quote_unit, UnicodeEscape, hex2.
  repeat match goal with
    | |- context [if ?b then _ else _] => destruct b
    end; simpl; lia.
Qed.

(** Quoting never shortens a string and makes it at most six times longer. *)
Lemma quote_units_length (s : jsstring) :
  (length s <= length (quote_units s) <= 6 * length s)%nat.
Proof.
  assert (H : forall (n : nat) (s : jsstring), (length s <= n)%nat ->
               (length s <= length (quote_units s) <= 6 * length s)%nat);
    [| exact (H (length s) s (Nat.le_refl _))].
  clear s. induction n as [| n IH]; intros s Hlen.
  - destruct s; [simpl; lia | simpl in Hlen; lia].
  - destruct s as [| c s]; [simpl; lia |]. simpl in Hlen.
    cbn [quote_units].
    destruct (is_leading_surrogate c).
    + destruct s as [| c' s]; [simpl; lia |].
      destruct (is_trailing_surrogate c').
      * simpl in Hlen. pose proof (IH s ltac:(lia)). simpl. lia.
      * pose proof (IH (c' :: s) ltac:(simpl in *; lia)) as H.
        rewrite length_app. simpl in *. lia.
    + pose proof (IH s ltac:(lia)) as H. pose proof (quote_unit_length c).
      rewrite length_app. simpl. lia.
Qed.

(** X10. With [STAGE] set to a non-empty string [S], the size of the body
    is that of its fixed part (116 code units, 119 with a six-digit year)
    plus between one and six code units for each code unit of [S]. *)
Theorem main_body_length
    (args : list value) (env : gmap jsstring jsstring) (clock : Z) (S : jsstring) :
  is_time_value clock ->
  env !! STAGE = Some S -> S <> [] ->
  exists r,
    main args env clock = Fulfilled r /\
    ((if four_digit_era clock then 116 else 119) + length S <= length (body r)
     <= (if four_digit_era clock then 116 else 119) + 6 * length S)%nat.
Proof.
  intros Ht Henv Hne. eexists. split; [apply main_fulfilled, Ht |]. cbn [body].
  destruct (stage_cases env) as (s & Hs & _ & _ & Hset).
  rewrite (Hset S Henv Hne) in Hs.
  rewrite (payload_string_props _ env S Hs), SerializeJSONObject_three.
  rewrite (QuoteJSONString_plain (iso_string clock)) by apply iso_string_plain.
  rewrite (QuoteJSONString_plain (js "message")),
    (QuoteJSONString_plain (js "timestamp")),
    (QuoteJSONString_plain (js "stage")),
    (QuoteJSONString_plain
       (js "Hello World from serverless starter template! Jayvee")) by reflexivity.
  unfold quoted, QuoteJSONString.
  pose proof (quote_units_length S) as HS.
  pose proof (iso_string_length clock) as Hts.
  repeat (rewrite length_app || rewrite length_cons).
  rewrite Hts.
  change (length (js "message")) with 7%nat.
  change (length (js "timestamp")) with 9%nat.
  change (length (js "stage")) with 5%nat.
  change (length (js "Hello World from serverless starter template! Jayvee"))
    with 52%nat.
  change (length (js "{")) with 1%nat. change (length (js "}")) with 1%nat.
  change (length (js ":")) with 1%nat. change (length (js ",")) with 1%nat.
  change (length (@nil code_unit)) with 0%nat.
  destruct (four_digit_era clock); lia.
Qed.

Lemma main_body_length_witness :
  is_time_value 0 /\
  (<[STAGE := awkward_stage]> ∅ : gmap jsstring jsstring) !! STAGE = Some awkward_stage /\
  awkward_stage <> [] /\
  exists r,
    main [] (<[STAGE := awkward_stage]> ∅) 0 = Fulfilled r /\
    ((if four_digit_era 0 then 116 else 119) + length awkward_stage <= length (body r)
     <= (if four_digit_era 0 then 116 else 119) + 6 * length awkward_stage)%nat.
Proof.
  split; [unfold is_time_value, maxTimeValue; lia |].
  split; [vm_compute; reflexivity |].
  split; [discriminate |].
  apply (main_body_length [] (<[STAGE := awkward_stage]> ∅) 0 awkward_stage).
  - unfold is_time_value, maxTimeValue. lia.
  - vm_compute. reflexivity.
  - discriminate.
Defined.

(** X11. An envelope tells the clock reading and the stage it was made
    from: two invocations that settle alike read the same millisecond and
    the same effective stage. *)
Theorem main_envelope_determines
    (args1 args2 : list value) (env1 env2 : gmap jsstring jsstring) (clock1 clock2 : Z) :
  is_time_value clock1 -> is_time_value clock2 ->
  main args1 env1 clock1 = main args2 env2 clock2 ->
  clock1 = clock2 /\
  logical_or (env_get env1 STAGE) (VString (js "dev"))
  = logical_or (env_get env2 STAGE) (VString (js "dev")).
Proof.
  intros H1 H2 Heq.
  rewrite (main_fulfilled args1 env1 clock1 H1),
    (main_fulfilled args2 env2 clock2 H2) in Heq.
  pose proof (f_equal (fun p => match p with
                               | Fulfilled r => JSON_parse (body r)
                               | Rejected _ => None
                               end) Heq) as Hbody.
  cbn [body] in Hbody.
  rewrite !JSON_parse_payload in Hbody.
  unfold payload in Hbody. injection Hbody as Hts Hstage.
  split; [| exact Hstage].
  apply (f_equal Date_parse) in Hts.
  rewrite !Date_parse_iso_string in Hts by assumption.
  now injection Hts.
Qed.

Lemma main_envelope_determines_witness :
  is_time_value 7 /\ is_time_value 7 /\
  main [VNull] (<[STAGE := []]> ∅) 7 = main [] ∅ 7 /\
  7 = 7 /\
  logical_or (env_get (<[STAGE := []]> ∅) STAGE) (VString (js "dev"))
  = logical_or (env_get ∅ STAGE) (VString (js "dev")).
Proof.
  assert (H : is_time_value 7) by (unfold is_time_value, maxTimeValue; lia).
  assert (E : main [VNull] (<[STAGE := []]> ∅) 7 = main [] ∅ 7)
    by (vm_compute; reflexivity).
  split; [exact H |]. split; [exact H |]. split; [exact E |].
  apply (main_envelope_determines [VNull] [] (<[STAGE := []]> ∅) ∅ 7 7 H H E).
Defined.
